(** * Reconnect API: the due-contact prioritisation engine

    A shallow embedding of [src/main.py]: the suggestion endpoint
    ([get_suggestions] with its local [overdue_score]), the helpers
    [days_since] and [is_due], the settings endpoints, the contact endpoints
    [update_contact] and [delete_contact], the interaction write path
    [add_interaction] and [seed_demo].

    Conventions of the embedding.
    - A [datetime] carries a number of microseconds counted from
      0001-01-01T00:00:00 and whether it is timezone-aware.  For an aware
      datetime the number is that of its instant on the UTC time line, for a
      naive one that of its wall-clock fields.  [now_utc()] returns aware
      datetimes.  Subtracting a naive datetime from an aware one raises
      [TypeError], as in Python.  A [timedelta] is a number of microseconds
      and [timedelta.days] the floor of the duration divided by one day,
      which is what Python's normalised timedelta stores.
    - [now_utc()] reads the system clock.  The clock is a sequence of
      readings; every call consumes the next one.  Code that calls
      [now_utc()] lives in the state monad [Clocked] over the index of the
      next reading; a computation that can raise returns a sum, the
      exception on the left.
    - A stored document is a record whose optional keys are [option]s
      ([None]: the key is missing).  The value under ["lastContactedAt"] is
      missing/null, a datetime or a string, as the code distinguishes them.
      A database holds the documents as the driver returns them.  A datetime
      written to the store is kept to the millisecond, and read back aware
      or naive as the client is configured ([tz_aware], an option set in the
      [database] module, which is not among the sources).
    - [datetime.fromisoformat] and [bson.ObjectId] belong to libraries: they
      are parameters, [None] standing for the exception they raise.  The
      contact collection is keyed by what [str] gives for the stored
      ["_id"]; [ObjectId(s)] is the key a request string [s] denotes.
    - [list.sort(key=..., reverse=True)] computes one key per element, in
      list order, and sorts stably in descending key order. *)

From Stdlib Require Import ZArith List Ascii String Bool Lia Sorted Permutation.
Import ListNotations.
Open Scope Z_scope.

(** ** Exceptions *)

Inductive Exception :=
| HTTPError (status_code : Z) (detail : string)   (* fastapi.HTTPException *)
| TypeError
| AttributeError
| InvalidId.                                       (* bson.errors.InvalidId *)

(** ** Time *)

Record datetime := {
  micros : Z;
  aware : bool
}.

Definition utc (u : Z) : datetime := {| micros := u; aware := true |}.

Definition naive (u : Z) : datetime := {| micros := u; aware := false |}.

Definition timedelta := Z.

Definition MICROS_PER_DAY : Z := 86400000000.

(** [timedelta(days=n)] *)
Definition timedelta_of_days (n : Z) : timedelta := n * MICROS_PER_DAY.

(** [td.days] *)
Definition days (td : timedelta) : Z := td / MICROS_PER_DAY.

(** [a - b] on datetimes: both aware or both naive. *)
Definition datetime_sub (a b : datetime) : Exception + timedelta :=
  if Bool.eqb (aware a) (aware b)
  then inr (micros a - micros b)
  else inl TypeError.

(** [d - td] *)
Definition datetime_minus (d : datetime) (td : timedelta) : datetime :=
  {| micros := micros d - td; aware := aware d |}.



(** What the store gives back for a datetime written to it: the
    milliseconds are kept, and the value is aware when the client was
    created with [tz_aware=True] and naive otherwise. *)
Definition bson_datetime (tz_aware : bool) (d : datetime) : datetime :=
  {| micros := 1000 * (micros d / 1000); aware := tz_aware |}.

(** ** The clock and code that reads it *)

Definition Clock := nat -> Z.

Definition Clocked (A : Type) : Type := nat -> A * nat.

Definition ret {A} (a : A) : Clocked A := fun t => (a, t).

Definition bind {A B} (m : Clocked A) (k : A -> Clocked B) : Clocked B :=
  fun t => let (a, t') := m t in k a t'.

Notation "x <- m ;; k" := (bind m (fun x => k))
  (at level 61, m at next level, right associativity).

(** Return and raise of computations that can fail. *)
Definition ok {A} (a : A) : Clocked (Exception + A) := ret (inr a).

Definition raise {A} (e : Exception) : Clocked (Exception + A) := ret (inl e).

(** Sequencing: an exception ends the computation; the clock readings
    consumed so far stay consumed. *)
Definition bind_ok {A B} (m : Clocked (Exception + A))
    (k : A -> Clocked (Exception + B)) : Clocked (Exception + B) :=
  fun t =>
    let (r, t') := m t in
    match r with
    | inl e => (inl e, t')
    | inr a => k a t'
    end.

Notation "x <-- m ;; k" := (bind_ok m (fun x => k))
  (at level 61, m at next level, right associativity).

Definition now_utc (clk : Clock) : Clocked datetime :=
  fun t => (utc (clk t), S t).

(** A [for] loop building a list from calls that read the clock. *)
Fixpoint mapM {A B} (f : A -> Clocked (Exception + B)) (l : list A)
  : Clocked (Exception + list B) :=
  match l with
  | [] => ok []
  | x :: l' => y <-- f x ;; ys <-- mapM f l' ;; ok (y :: ys)
  end.

(** A list comprehension with a condition that reads the clock. *)
Fixpoint filterM {A} (p : A -> Clocked (Exception + bool)) (l : list A)
  : Clocked (Exception + list A) :=
  match l with
  | [] => ok []
  | x :: l' =>
      b <-- p x ;; ys <-- filterM p l' ;; ok (if b then x :: ys else ys)
  end.

(** ** Documents *)

(** The value found under ["lastContactedAt"]. *)
Inductive LastContacted :=
| Absent                 (* key missing, or null *)
| At (d : datetime)      (* a datetime *)
| Raw (s : string).      (* a string *)

(** A document of the "contact" collection: the fields of [ContactIn], and
    the [updated_at] stamp that updates add. *)
Record ContactDoc := {
  fullName : string;
  relationship : string;
  phoneNumber : string;
  email : option string;
  frequencyDays : option Z;
  lastContactedAt : LastContacted;
  priority : option Z;
  updated_at : option datetime
}.

(** A contact as the suggestion endpoint handles it: the document with its
    ["_id"] moved to ["id"], and the ["daysSince"] key once it is set
    ([Some None] is a null annotation). *)
Record Contact := {
  id : string;
  doc : ContactDoc;
  daysSince : option (option Z)
}.

(** A document of the "contactinteraction" collection, as [add_interaction]
    builds it. *)
Record InteractionDoc := {
  contactId : string;
  type : string;
  messagePreview : option string;
  notes : option string;
  createdAt : datetime
}.

(** [InteractionIn] *)
Record InteractionIn := {
  in_type : string;
  in_messagePreview : option string;
  in_notes : option string
}.

(** [ContactIn], the body of the contact endpoints, after the framework has
    applied the defaults of the model. *)
Record ContactIn := {
  ci_fullName : string;
  ci_relationship : string;
  ci_phoneNumber : string;
  ci_email : option string;
  ci_frequencyDays : Z;
  ci_lastContactedAt : option datetime;
  ci_priority : option Z
}.

(** The "settings" document. *)
Record SettingsDoc := {
  mode : string;
  countDaily : Z;
  countWeekly : Z;
  defaultFrequencies : list Z
}.

(** The database: each collection in storage order, keyed by ["_id"]. *)
Record Database := {
  contact : list (string * ContactDoc);
  contactinteraction : list (string * InteractionDoc);
  settings : option SettingsDoc
}.

(** [find_one({"_id": k})] *)
Fixpoint find_one {A} (k : string) (coll : list (string * A)) : option A :=
  match coll with
  | [] => None
  | (k', d) :: rest => if String.eqb k' k then Some d else find_one k rest
  end.

(** [update_one({"_id": k}, {"$set": ...})]: the first match is rewritten. *)
Fixpoint update_one {A} (k : string) (f : A -> A) (coll : list (string * A))
  : list (string * A) :=
  match coll with
  | [] => []
  | (k', d) :: rest =>
      if String.eqb k' k then (k', f d) :: rest
      else (k', d) :: update_one k f rest
  end.

(** [delete_one({"_id": k})]: the first match is removed. *)
Fixpoint delete_one {A} (k : string) (coll : list (string * A))
  : list (string * A) :=
  match coll with
  | [] => []
  | (k', d) :: rest =>
      if String.eqb k' k then rest else (k', d) :: delete_one k rest
  end.

(** [delete_many({"contactId": s})] on the interaction collection: the field
    is compared with the string as it stands. *)
Definition delete_many_contactId (s : string)
    (coll : list (string * InteractionDoc)) : list (string * InteractionDoc) :=
  filter (fun kd => negb (String.eqb (contactId (snd kd)) s)) coll.

(** [matched_count] of [update_one] and [deleted_count] of [delete_one]: one
    when a document has the identifier, zero otherwise. *)
Definition count_matched {A} (k : string) (coll : list (string * A)) : Z :=
  match find_one k coll with
  | Some _ => 1
  | None => 0
  end.

(** [collection(name)] fails when the database is not configured. *)
Definition collection (db : option Database) : Exception + Database :=
  match db with
  | None => inl (HTTPError 500 "Database not configured")
  | Some d => inr d
  end.

(** ** Python list helpers *)

(** [l[:n]]: a negative [n] counts from the end. *)
Definition slice_to {A} (l : list A) (n : Z) : list A :=
  if 0 <=? n then firstn (Z.to_nat n) l
  else firstn (List.length l - Z.to_nat (- n)) l.

(** [a or b] on lists: an empty list is falsy. *)
Definition list_or {A} (a b : list A) : list A :=
  match a with
  | [] => b
  | _ :: _ => a
  end.

(** Stable sort of (key, element) pairs in descending key order, as
    [list.sort(reverse=True)] orders them: an element is placed before the
    elements of the same key that followed it in the input. *)
Fixpoint insert_desc {A} (x : Z * A) (l : list (Z * A)) : list (Z * A) :=
  match l with
  | [] => [x]
  | y :: l' => if fst x <? fst y then y :: insert_desc x l' else x :: y :: l'
  end.

Definition sort_reverse {A} (l : list (Z * A)) : list (Z * A) :=
  fold_right insert_desc [] l.

(** ** The engine *)

(** The score [1e9] of [overdue_score].  Python compares a float with an int
    by value, and 1e9 is the integer 10^9 exactly. *)
Definition NEVER_CONTACTED_SCORE : Z := 1000000000.

Definition set_daysSince (c : Contact) (d : option Z) : Contact :=
  {| id := id c; doc := doc c; daysSince := Some d |}.

(** [c.get("frequencyDays", 30)] *)
Definition get_frequencyDays (c : Contact) : Z :=
  match frequencyDays (doc c) with
  | Some f => f
  | None => 30
  end.

Section Engine.

Variable fromisoformat : string -> option datetime.
Variable clk : Clock.

(** The block that [is_due], [overdue_score] and the annotation loop each
    start with:
      last = c.get("lastContactedAt")
      if isinstance(last, str):
          try: last = datetime.fromisoformat(last)
          except Exception: last = None *)
Definition get_last (c : Contact) : option datetime :=
  match lastContactedAt (doc c) with
  | Absent => None
  | At d => Some d
  | Raw s => fromisoformat s
  end.

(** [(now_utc() - dt).days]: the clock is read, then the subtraction may
    raise. *)
Definition days_elapsed (dt : datetime) : Clocked (Exception + Z) :=
  now <- now_utc clk ;;
  ret (match datetime_sub now dt with
       | inl e => inl e
       | inr td => inr (days td)
       end).

Definition days_since (dt : option datetime) : Clocked (Exception + option Z) :=
  match dt with
  | None => ok None
  | Some d => n <-- days_elapsed d ;; ok (Some n)
  end.

Definition is_due (c : Contact) : Clocked (Exception + bool) :=
  let freq := get_frequencyDays c in
  match get_last c with
  | None => ok true
  | Some last => n <-- days_elapsed last ;; ok (freq <=? n)
  end.

Definition overdue_score (c : Contact) : Clocked (Exception + Z) :=
  let last := get_last c in
  let freq := get_frequencyDays c in
  match last with
  | None => ok NEVER_CONTACTED_SCORE
  | Some l => n <-- days_elapsed l ;; ok (n - freq)
  end.

(** [items = list(collection("contact").find())] and the loop renaming
    ["_id"]. *)
Definition load_contacts (d : Database) : list Contact :=
  map (fun kd => {| id := fst kd; doc := snd kd; daysSince := None |})
      (contact d).

(** The key of every item, computed in list order. *)
Definition score_items (items : list Contact)
  : Clocked (Exception + list (Z * Contact)) :=
  mapM (fun c => k <-- overdue_score c ;; ok (k, c)) items.

(** [items.sort(key=overdue_score, reverse=True)], the keys kept beside
    the items. *)
Definition sort_items (items : list Contact)
  : Clocked (Exception + list (Z * Contact)) :=
  keyed <-- score_items items ;; ok (sort_reverse keyed).

(** [due = [c for c in items if is_due(c)]] *)
Definition due_items (sorted : list (Z * Contact))
  : Clocked (Exception + list (Z * Contact)) :=
  filterM (fun kc => is_due (snd kc)) sorted.

(** [target = count if mode == "daily" else count] *)
Definition target (mode : string) (count : Z) : Z :=
  if String.eqb mode "daily" then count else count.

(** The loop that sets ["daysSince"] on every returned contact. *)
Definition annotate (result : list (Z * Contact))
  : Clocked (Exception + list (Z * Contact)) :=
  mapM (fun kc =>
          d <-- days_since (get_last (snd kc)) ;;
          ok (fst kc, set_daysSince (snd kc) d)) result.

(** The body of [get_suggestions] after the contacts are loaded; every
    returned contact is paired with the sort key it was ordered by. *)
Definition suggest (items : list Contact) (mode : string) (count : Z)
  : Clocked (Exception + list (Z * Contact)) :=
  sorted <-- sort_items items ;;
  due <-- due_items sorted ;;
  let fallback := sorted in
  let result := slice_to (list_or due fallback) (target mode count) in
  annotate result.

Definition get_suggestions (db : option Database) (mode : string) (count : Z)
  : Clocked (Exception + list Contact) :=
  match collection db with
  | inl e => raise e
  | inr d =>
      result <-- suggest (load_contacts d) mode count ;;
      ok (map snd result)
  end.

(** The endpoint as the framework calls it: a query parameter that is
    absent takes the default of the signature,
    [def get_suggestions(mode: str = "daily", count: int = 3)]. *)
Definition get_suggestions_request (db : option Database)
    (mode : option string) (count : option Z)
  : Clocked (Exception + list Contact) :=
  get_suggestions db
    (match mode with Some m => m | None => "daily"%string end)
    (match count with Some n => n | None => 3 end).

(** The first steps of [get_suggestions]: the sorted contacts and the pool
    the result is cut from, [due or fallback]. *)
Definition result_pool_run (items : list Contact)
  : Clocked (Exception + list (Z * Contact) * list (Z * Contact)) :=
  sorted <-- sort_items items ;;
  due <-- due_items sorted ;;
  ok (sorted, list_or due sorted).

End Engine.

(** ** Settings *)

Definition DEFAULT_SETTINGS : SettingsDoc :=
  {| mode := "daily"; countDaily := 3; countWeekly := 10;
     defaultFrequencies := [7; 30; 90] |}.

(** [get_settings]: the stored document, created with the defaults when it
    is missing. *)
Definition get_settings (db : option Database)
  : (Exception + SettingsDoc) * option Database :=
  match collection db with
  | inl e => (inl e, db)
  | inr d =>
      match settings d with
      | Some s => (inr s, db)
      | None =>
          (inr DEFAULT_SETTINGS,
           Some {| contact := contact d;
                   contactinteraction := contactinteraction d;
                   settings := Some DEFAULT_SETTINGS |})
      end
  end.

(** [update_settings]: the body ([SettingsIn], the four fields of the
    settings document) is written with [upsert=True] and read back. *)
Definition update_settings (db : option Database) (data : SettingsDoc)
  : (Exception + SettingsDoc) * option Database :=
  match collection db with
  | inl e => (inl e, db)
  | inr d =>
      let d1 :=
        {| contact := contact d;
           contactinteraction := contactinteraction d;
           settings := Some data |} in
      match settings d1 with
      | Some doc => (inr doc, Some d1)
      | None => (inl AttributeError, Some d1)
      end
  end.

(** ** Recording an interaction *)

(** The ["$set"] of [add_interaction], as the store keeps it. *)
Definition touch (last upd : datetime) (c : ContactDoc) : ContactDoc :=
  {| fullName := fullName c;
     relationship := relationship c;
     phoneNumber := phoneNumber c;
     email := email c;
     frequencyDays := frequencyDays c;
     lastContactedAt := At last;
     priority := priority c;
     updated_at := Some upd |}.

(** The [payload] dictionary of [add_interaction]. *)
Definition interaction_payload (contact_id : string) (data : InteractionIn)
    (created : datetime) : InteractionDoc :=
  {| contactId := contact_id;
     type := in_type data;
     messagePreview := in_messagePreview data;
     notes := in_notes data;
     createdAt := created |}.

Section Interactions.

Variable clk : Clock.
Variable tz_aware : bool.
Variable ObjectId : string -> option string.

(** [create_document(collection_name, data)] is imported from the
    [database] module, which is not among the sources: it inserts the
    document and returns its identifier.  It is a parameter here; it may
    read the clock and it returns the database it leaves. *)
Variable create_document :
  string -> InteractionDoc -> Database -> Clocked (string * Database).

Definition add_interaction (db : option Database) (contact_id : string)
    (data : InteractionIn)
  : Clocked ((Exception + string * InteractionDoc) * option Database) :=
  match collection db with
  | inl e => ret (inl e, db)
  | inr d =>
      match ObjectId contact_id with
      | None => ret (inl InvalidId, db)
      | Some oid =>
          match find_one oid (contact d) with
          | None => ret (inl (HTTPError 404 "Contact not found"), db)
          | Some _ =>
              created <- now_utc clk ;;
              let payload := interaction_payload contact_id data created in
              r <- create_document "contactinteraction" payload d ;;
              let _id := fst r in
              let d1 := snd r in
              last <- now_utc clk ;;
              upd <- now_utc clk ;;
              let d2 :=
                {| contact :=
                     update_one oid
                       (touch (bson_datetime tz_aware last)
                              (bson_datetime tz_aware upd))
                       (contact d1);
                   contactinteraction := contactinteraction d1;
                   settings := settings d1 |} in
              match ObjectId _id with
              | None => ret (inl InvalidId, Some d2)
              | Some iid =>
                  match find_one iid (contactinteraction d2) with
                  | Some doc => ret (inr (iid, doc), Some d2)
                  | None => ret (inr (_id, payload), Some d2)
                  end
              end
          end
      end
  end.

End Interactions.

(** ** Contacts: update and delete *)

(** The ["$set"] of [update_contact], as the store keeps it:
    [{**data.model_dump(), "updated_at": now_utc()}] names every field of
    the document. *)
Definition contact_set (tz_aware : bool) (data : ContactIn) (upd : datetime)
  : ContactDoc -> ContactDoc :=
  fun _ =>
    {| fullName := ci_fullName data;
       relationship := ci_relationship data;
       phoneNumber := ci_phoneNumber data;
       email := ci_email data;
       frequencyDays := Some (ci_frequencyDays data);
       lastContactedAt :=
         match ci_lastContactedAt data with
         | Some d => At (bson_datetime tz_aware d)
         | None => Absent
         end;
       priority := ci_priority data;
       updated_at := Some (bson_datetime tz_aware upd) |}.

Section Contacts.

Variable clk : Clock.
Variable tz_aware : bool.
Variable ObjectId : string -> option string.

(** [update_contact].  The filter [{"_id": ObjectId(contact_id)}] is built
    before the ["$set"] reads the clock.  The last two lines read the
    document back; were it missing, [doc.pop] on [None] would raise. *)
Definition update_contact (db : option Database) (contact_id : string)
    (data : ContactIn)
  : Clocked ((Exception + string * ContactDoc) * option Database) :=
  match collection db with
  | inl e => ret (inl e, db)
  | inr d =>
      match ObjectId contact_id with
      | None => ret (inl InvalidId, db)
      | Some oid =>
          upd <- now_utc clk ;;
          let matched_count := count_matched oid (contact d) in
          let d1 :=
            {| contact :=
                 update_one oid (contact_set tz_aware data upd) (contact d);
               contactinteraction := contactinteraction d;
               settings := settings d |} in
          if matched_count =? 0
          then ret (inl (HTTPError 404 "Contact not found"), Some d1)
          else
            match find_one oid (contact d1) with
            | Some doc => ret (inr (oid, doc), Some d1)
            | None => ret (inl AttributeError, Some d1)
            end
      end
  end.

(** [delete_contact]; [true] is the body [{"success": True}].  The contact
    is looked up by [ObjectId(contact_id)], its interactions by the string
    [contact_id]. *)
Definition delete_contact (db : option Database) (contact_id : string)
  : (Exception + bool) * option Database :=
  match collection db with
  | inl e => (inl e, db)
  | inr d =>
      match ObjectId contact_id with
      | None => (inl InvalidId, db)
      | Some oid =>
          let deleted_count := count_matched oid (contact d) in
          let d1 :=
            {| contact := delete_one oid (contact d);
               contactinteraction := contactinteraction d;
               settings := settings d |} in
          if deleted_count =? 0
          then (inl (HTTPError 404 "Contact not found"), Some d1)
          else
            (inr true,
             Some {| contact := contact d1;
                     contactinteraction :=
                       delete_many_contactId contact_id
                         (contactinteraction d1);
                     settings := settings d1 |})
      end
  end.

End Contacts.

(** ** Seeding *)

(** The answer of [seed_demo]. *)
Inductive SeedResult :=
| NotSeeded (message : string)
| Seeded (count : Z) (ids : list string).

Definition seed_doc (name rel phone : string) (mail : option string)
    (freq : Z) (last : LastContacted) (prio : Z) : ContactDoc :=
  {| fullName := name; relationship := rel; phoneNumber := phone;
     email := mail; frequencyDays := Some freq; lastContactedAt := last;
     priority := Some prio; updated_at := None |}.

(** The three documents of [seed_demo], given the two clock readings. *)
Definition seed_contacts (now1 now2 : datetime) : list ContactDoc :=
  [seed_doc "Alex Johnson" "friend" "+15551234567"
     (Some "alex@example.com"%string) 14
     (At (datetime_minus now1 (timedelta_of_days 30))) 3;
   seed_doc "Jamie Lee" "business" "+15557654321"
     (Some "jamie@work.co"%string) 30
     (At (datetime_minus now2 (timedelta_of_days 90))) 4;
   seed_doc "Taylor Kim" "family" "+15559876543" None 7 Absent 5].

Section Seeding.

Variable clk : Clock.

(** [create_document(collection_name, data)] of the [database] module, on
    contact documents: a parameter, as in [add_interaction]. *)
Variable create_document :
  string -> ContactDoc -> Database -> Clocked (string * Database).

(** The loop [for c in contacts: ids.append(create_document("contact", c))]. *)
Fixpoint create_all (contacts : list ContactDoc) (d : Database)
  : Clocked (list string * Database) :=
  match contacts with
  | [] => ret ([], d)
  | c :: rest =>
      r <- create_document "contact" c d ;;
      rs <- create_all rest (snd r) ;;
      ret (fst r :: fst rs, snd rs)
  end.

Definition seed_demo (db : option Database)
  : Clocked ((Exception + SeedResult) * option Database) :=
  match collection db with
  | inl e => ret (inl e, db)
  | inr d =>
      let existing := Z.of_nat (List.length (contact d)) in
      if 0 <? existing
      then ret (inr (NotSeeded "Contacts already exist"), db)
      else
        now1 <- now_utc clk ;;
        now2 <- now_utc clk ;;
        let contacts := seed_contacts now1 now2 in
        r <- create_all contacts d ;;
        ret (inr (Seeded (Z.of_nat (List.length (fst r))) (fst r)),
             Some (snd r))
  end.

End Seeding.

(** ** A storage layer and an [ObjectId] for the examples *)

(** The digits of [n] in base 16, [digits] of them. *)
Definition hex_digit (n : nat) : ascii :=
  nth n ["0"; "1"; "2"; "3"; "4"; "5"; "6"; "7"; "8"; "9";
         "a"; "b"; "c"; "d"; "e"; "f"]%char "0"%char.

Fixpoint hex_of (digits n : nat) : list ascii :=
  match digits with
  | O => []
  | S k => hex_of k (n / 16) ++ [hex_digit (n mod 16)]
  end.

(** An identifier of 24 hexadecimal digits made from a number. *)
Definition hex_id (n : nat) : string := string_of_list_ascii (hex_of 24 n).

(** What the store gives back for a contact document written to it. *)
Definition bson_contact (tz_aware : bool) (c : ContactDoc) : ContactDoc :=
  {| fullName := fullName c;
     relationship := relationship c;
     phoneNumber := phoneNumber c;
     email := email c;
     frequencyDays := frequencyDays c;
     lastContactedAt :=
       match lastContactedAt c with
       | At d => At (bson_datetime tz_aware d)
       | v => v
       end;
     priority := priority c;
     updated_at :=
       match updated_at c with
       | Some d => Some (bson_datetime tz_aware d)
       | None => None
       end |}.

(** Modelled from the spec: the storage collaborator's create operation
    ([database.create_document], absent from the sources), as a document
    store that assigns the identifier on creation: the interaction is
    appended to its collection under an identifier made from the size of the
    collection, its datetime kept as the store keeps it, and the clock is
    not read. *)
Definition append_document (tz_aware : bool) (coll : string)
    (p : InteractionDoc) (d : Database) : Clocked (string * Database) :=
  let new_id := hex_id (S (List.length (contactinteraction d))) in
  ret (new_id,
       {| contact := contact d;
          contactinteraction :=
            contactinteraction d
            ++ [(new_id,
                 {| contactId := contactId p;
                    type := type p;
                    messagePreview := messagePreview p;
                    notes := notes p;
                    createdAt := bson_datetime tz_aware (createdAt p) |})];
          settings := settings d |}).

(** Modelled from the spec: the same create operation on contacts. *)
Definition append_contact (tz_aware : bool) (coll : string) (c : ContactDoc)
    (d : Database) : Clocked (string * Database) :=
  let new_id := hex_id (S (List.length (contact d))) in
  ret (new_id,
       {| contact := contact d ++ [(new_id, bson_contact tz_aware c)];
          contactinteraction := contactinteraction d;
          settings := settings d |}).

(** An [ObjectId] for the examples: a string of 24 hexadecimal digits
    denotes the identifier written with lower-case digits; any other string
    is refused. *)
Definition hex_lower (c : ascii) : option ascii :=
  let n := nat_of_ascii c in
  if (Nat.leb 48 n && Nat.leb n 57)%bool then Some c
  else if (Nat.leb 97 n && Nat.leb n 102)%bool then Some c
  else if (Nat.leb 65 n && Nat.leb n 70)%bool then Some (ascii_of_nat (n + 32))
  else None.

Fixpoint hex_lower_all (l : list ascii) : option (list ascii) :=
  match l with
  | [] => Some []
  | c :: l' =>
      match hex_lower c, hex_lower_all l' with
      | Some c', Some r => Some (c' :: r)
      | _, _ => None
      end
  end.

Definition hex_ObjectId (s : string) : option string :=
  if Nat.eqb (String.length s) 24
  then match hex_lower_all (list_ascii_of_string s) with
       | Some l => Some (string_of_list_ascii l)
       | None => None
       end
  else None.

(** ** Vocabulary of the properties *)

(** [subseq l1 l2]: [l1] is [l2] with some elements left out, the others in
    the same order. *)
Inductive subseq {A} : list A -> list A -> Prop :=
| subseq_nil : subseq [] []
| subseq_skip x l1 l2 : subseq l1 l2 -> subseq l1 (x :: l2)
| subseq_keep x l1 l2 : subseq l1 l2 -> subseq (x :: l1) (x :: l2).

#[local] Hint Constructors subseq : core.

(** The order [sort_reverse] establishes. *)
Definition key_ge {A} (a b : Z * A) : Prop := fst b <= fst a.

Definition has_key {A} (s : Z) (kc : Z * A) : bool := fst kc =? s.

Definition nonnegative_key {A} (kc : Z * A) : bool := 0 <=? fst kc.

Definition descending (keys : list Z) : Prop :=
  StronglySorted (fun a b => b <= a) keys.

(** What storage holds of a returned contact. *)
Definition stored (kc : Z * Contact) : string * ContactDoc :=
  (id (snd kc), doc (snd kc)).

Definition stored_contact (c : Contact) : string * ContactDoc :=
  (id c, doc c).

(** A call never moves the clock index back. *)
Definition advances {A B} (f : A -> Clocked B) : Prop :=
  forall x t, (t <= snd (f x t))%nat.

(** *** The words of the specification, on stored documents

    Sections 3, 4.1 and 4.2 of the specification, written on the stored
    document and an instant [now] in microseconds, for statements to
    compare the code with. *)

(** The timestamp of the last contact: none when the field is missing or
    does not parse. *)
Definition last_contact (fromisoformat : string -> option datetime)
    (c : ContactDoc) : option datetime :=
  match lastContactedAt c with
  | Absent => None
  | At d => Some d
  | Raw s => fromisoformat s
  end.

(** The desired gap in days, 30 when the document names none. *)
Definition frequency (c : ContactDoc) : Z :=
  match frequencyDays c with
  | Some f => f
  | None => 30
  end.

(** Whole days in a duration of microseconds: the floor. *)
Definition whole_days (elapsed : Z) : Z := elapsed / 86400000000.

(** [isDue(contact, now)] *)
Definition due_at (fromisoformat : string -> option datetime) (now : Z)
    (c : ContactDoc) : bool :=
  match last_contact fromisoformat c with
  | None => true
  | Some last => frequency c <=? whole_days (now - micros last)
  end.

(** [overdueScore(contact, now)], the top score being the code's 10^9. *)
Definition score_at (fromisoformat : string -> option datetime) (now : Z)
    (c : ContactDoc) : Z :=
  match last_contact fromisoformat c with
  | None => 1000000000
  | Some last => whole_days (now - micros last) - frequency c
  end.

(** Every timestamp the contacts have is timezone-aware. *)
Definition aware_timestamp (fromisoformat : string -> option datetime)
    (c : ContactDoc) : bool :=
  match last_contact fromisoformat c with
  | None => true
  | Some last => aware last
  end.

Definition timestamps_aware (fromisoformat : string -> option datetime)
    (d : Database) : bool :=
  forallb (fun kd => aware_timestamp fromisoformat (snd kd)) (contact d).

(** *** Readings of the clock taken between two indices *)

(** The key beside a contact is its score at a reading taken from index [t]
    up to, not including, index [t']; a contact without timestamp needs no
    reading. *)
Definition scored_in (fromisoformat : string -> option datetime) (clk : Clock)
    (t t' : nat) (kc : Z * Contact) : Prop :=
  match last_contact fromisoformat (doc (snd kc)) with
  | None => fst kc = 1000000000
  | Some _ =>
      exists k, (t <= k < t')%nat /\
                fst kc = score_at fromisoformat (clk k) (doc (snd kc))
  end.

Definition due_in (fromisoformat : string -> option datetime) (clk : Clock)
    (t t' : nat) (c : ContactDoc) : Prop :=
  match last_contact fromisoformat c with
  | None => True
  | Some _ =>
      exists k, (t <= k < t')%nat /\ due_at fromisoformat (clk k) c = true
  end.

Definition not_due_in (fromisoformat : string -> option datetime)
    (clk : Clock) (t t' : nat) (c : ContactDoc) : Prop :=
  match last_contact fromisoformat c with
  | None => False
  | Some _ =>
      exists k, (t <= k < t')%nat /\ due_at fromisoformat (clk k) c = false
  end.

(** The annotation of a returned contact: null without timestamp, else the
    whole days between the timestamp and a reading taken in the interval. *)
Definition annotated_in (fromisoformat : string -> option datetime)
    (clk : Clock) (t t' : nat) (c : Contact) : Prop :=
  match last_contact fromisoformat (doc c) with
  | None => daysSince c = Some None
  | Some last =>
      exists k, (t <= k < t')%nat /\
                daysSince c = Some (Some (whole_days (clk k - micros last)))
  end.

(** *** What the endpoints rely on from the storage layer *)

(** Creating the interaction [p] in database [d] at clock index [t] leaves
    the contacts alone. *)
Definition create_keeps_contacts
    (create_document :
       string -> InteractionDoc -> Database -> Clocked (string * Database))
    (p : InteractionDoc) (d : Database) (t : nat) : Prop :=
  let r := create_document "contactinteraction"%string p d t in
  contact (snd (fst r)) = contact d.

(** It does not move the clock back. *)
Definition create_advances
    (create_document :
       string -> InteractionDoc -> Database -> Clocked (string * Database))
    (p : InteractionDoc) (d : Database) (t : nat) : Prop :=
  let r := create_document "contactinteraction"%string p d t in
  (t <= snd r)%nat.

(** The identifier it returns is one [ObjectId] accepts, and the document
    then found under it carries the [createdAt] of [p] as the store keeps
    it. *)
Definition create_stores (tz_aware : bool) (ObjectId : string -> option string)
    (create_document :
       string -> InteractionDoc -> Database -> Clocked (string * Database))
    (p : InteractionDoc) (d : Database) (t : nat) : Prop :=
  let r := create_document "contactinteraction"%string p d t in
  exists iid found,
    ObjectId (fst (fst r)) = Some iid /\
    find_one iid (contactinteraction (snd (fst r))) = Some found /\
    createdAt found = bson_datetime tz_aware (createdAt p).

(** What the store holds of a contact document [c] written to it: the
    fields of [c], a datetime as the store keeps it.  The storage layer may
    stamp what it creates: [updated_at] is left open. *)
Definition stored_as (tz_aware : bool) (c c' : ContactDoc) : Prop :=
  fullName c' = fullName c /\
  relationship c' = relationship c /\
  phoneNumber c' = phoneNumber c /\
  email c' = email c /\
  frequencyDays c' = frequencyDays c /\
  lastContactedAt c'
  = match lastContactedAt c with
    | At d => At (bson_datetime tz_aware d)
    | v => v
    end /\
  priority c' = priority c.

(** Creating a contact appends a document holding it to the contact
    collection, under the identifier returned. *)
Definition create_appends (tz_aware : bool)
    (create_document :
       string -> ContactDoc -> Database -> Clocked (string * Database))
  : Prop :=
  forall c d t,
  exists c',
    contact (snd (fst (create_document "contact"%string c d t)))
    = contact d ++ [(fst (fst (create_document "contact"%string c d t)), c')] /\
    stored_as tz_aware c c'.

(** *** Changing one field of a contact *)

Definition set_lastContactedAt (c : Contact) (v : LastContacted) : Contact :=
  {| id := id c;
     doc := {| fullName := fullName (doc c);
               relationship := relationship (doc c);
               phoneNumber := phoneNumber (doc c);
               email := email (doc c);
               frequencyDays := frequencyDays (doc c);
               lastContactedAt := v;
               priority := priority (doc c);
               updated_at := updated_at (doc c) |};
     daysSince := daysSince c |}.


Definition with_settings (d : Database) (s : option SettingsDoc) : Database :=
  {| contact := contact d;
     contactinteraction := contactinteraction d;
     settings := s |}.

(** ** Example data *)

Open Scope string_scope.
Open Scope list_scope.
Open Scope Z_scope.

(** A parser for the examples: it reads one timestamp with an offset and
    one without, and rejects every other string. *)
Definition demo_fromisoformat (s : string) : option datetime :=
  if String.eqb s "0001-01-03T00:00:00+00:00"
  then Some (utc (timedelta_of_days 2))
  else if String.eqb s "0001-01-03T00:00:00"
  then Some (naive (timedelta_of_days 2))
  else None.

(** A clock for the examples: it starts at noon of day 700000 and every
    reading is one second after the one before. *)
Definition DEMO_NOW : Z := timedelta_of_days 700000 + 43200000000.

Definition demo_clock : Clock := fun n => DEMO_NOW + 1000000 * Z.of_nat n.

Definition demo_doc (name : string) (freq : option Z) (last : LastContacted)
  : ContactDoc :=
  {| fullName := name; relationship := "friend"; phoneNumber := "+15551234567";
     email := None; frequencyDays := freq; lastContactedAt := last;
     priority := Some 1; updated_at := None |}.

Definition demo_contact (k name : string) (freq : option Z)
    (last : LastContacted) : Contact :=
  {| id := k; doc := demo_doc name freq last; daysSince := None |}.

Definition ALEX : string := "65f0a1b2c3d4e5f601234501".
Definition JAMIE : string := "65f0a1b2c3d4e5f601234502".
Definition TAYLOR : string := "65f0a1b2c3d4e5f601234503".

Definition alex_doc : ContactDoc :=
  demo_doc "Alex Johnson" (Some 14)
    (At (utc (DEMO_NOW - timedelta_of_days 30))).

Definition jamie_doc : ContactDoc :=
  demo_doc "Jamie Lee" (Some 30)
    (At (utc (DEMO_NOW - timedelta_of_days 90))).

Definition taylor_doc : ContactDoc := demo_doc "Taylor Kim" (Some 7) Absent.

(** The contacts of the seed data: Alex (every 14 days, 30 days ago), Jamie
    (every 30 days, 90 days ago) and Taylor (every 7 days, never). *)
Definition demo_db : Database :=
  {| contact := [(ALEX, alex_doc); (JAMIE, jamie_doc); (TAYLOR, taylor_doc)];
     contactinteraction := [];
     settings := None |}.

(** One contact, reached at the first reading of the example clock. *)
Definition recent_db : Database :=
  {| contact := [(ALEX, demo_doc "Alex Johnson" (Some 14) (At (utc DEMO_NOW)))];
     contactinteraction := [];
     settings := None |}.

(** A never-contacted contact, and one reached at the first reading of the
    example clock whose frequencyDays is -2000000000, a value [ContactIn]
    accepts. *)
Definition extreme_db : Database :=
  {| contact :=
       [(TAYLOR, taylor_doc);
        (JAMIE, demo_doc "Blake Roe" (Some (-2000000000)) (At (utc DEMO_NOW)))];
     contactinteraction := [];
     settings := None |}.

(** Two contacts with the same timestamp and frequency: one day, less one
    second, before the first reading of the example clock, to be reached
    every day. *)
Definition twin_doc (name : string) : ContactDoc :=
  demo_doc name (Some 1) (At (utc (DEMO_NOW + 1000000 - timedelta_of_days 1))).

Definition twin_db : Database :=
  {| contact := [(ALEX, twin_doc "Alex Johnson"); (JAMIE, twin_doc "Jamie Lee")];
     contactinteraction := [];
     settings := None |}.

(** A contact whose timestamp is a string without offset. *)
Definition naive_db : Database :=
  {| contact :=
       [(TAYLOR, taylor_doc);
        (ALEX, demo_doc "Alex Johnson" (Some 14) (Raw "0001-01-03T00:00:00"))];
     contactinteraction := [];
     settings := None |}.

(** Four never-contacted contacts, and stored settings that ask for the
    weekly mode with ten contacts a week. *)
Definition weekly_settings : SettingsDoc :=
  {| mode := "weekly"; countDaily := 5; countWeekly := 10;
     defaultFrequencies := [7; 30; 90] |}.

Definition weekly_db : Database :=
  {| contact :=
       [("65f0a1b2c3d4e5f601234511", demo_doc "Pat" (Some 7) Absent);
        ("65f0a1b2c3d4e5f601234512", demo_doc "Quinn" (Some 7) Absent);
        ("65f0a1b2c3d4e5f601234513", demo_doc "Robin" (Some 7) Absent);
        ("65f0a1b2c3d4e5f601234514", demo_doc "Sky" (Some 7) Absent)];
     contactinteraction := [];
     settings := Some weekly_settings |}.

Definition call : InteractionIn :=
  {| in_type := "call"; in_messagePreview := None; in_notes := None |}.

(** A body for the contact endpoints that names no lastContactedAt. *)
Definition demo_contact_in : ContactIn :=
  {| ci_fullName := "Alex Johnson"; ci_relationship := "friend";
     ci_phoneNumber := "+15551234567"; ci_email := None;
     ci_frequencyDays := 21; ci_lastContactedAt := None;
     ci_priority := Some 2 |}.

(** The seed contacts with two interactions recorded for Alex, one of them
    under the upper-case spelling of the identifier, and one for Jamie. *)
Definition ALEX_UPPER : string := "65F0A1B2C3D4E5F601234501".

Definition busy_db : Database :=
  {| contact := contact demo_db;
     contactinteraction :=
       [(hex_id 1,
         {| contactId := ALEX; type := "call"; messagePreview := None;
            notes := None;
            createdAt := utc (DEMO_NOW - timedelta_of_days 40) |});
        (hex_id 2,
         {| contactId := JAMIE; type := "text";
            messagePreview := Some "Hi Jamie"; notes := None;
            createdAt := utc (DEMO_NOW - timedelta_of_days 90) |});
        (hex_id 3,
         {| contactId := ALEX_UPPER; type := "text";
            messagePreview := Some "Hi Alex"; notes := None;
            createdAt := utc (DEMO_NOW - timedelta_of_days 30) |})];
     settings := None |}.

(** An empty database. *)
Definition empty_db : Database :=
  {| contact := []; contactinteraction := []; settings := None |}.
(** * Properties *)

(** ** Subsequences *)

Lemma subseq_refl {A} (l : list A) : subseq l l.
Proof. induction l; auto. Qed.

Lemma subseq_nil_l {A} (l : list A) : subseq [] l.
Proof. induction l; auto. Qed.

Lemma subseq_trans {A} (l1 l2 l3 : list A) :
  subseq l1 l2 -> subseq l2 l3 -> subseq l1 l3.
Proof.
  intros H12 H23. revert l1 H12.
  induction H23; intros l0 H12; auto.
  inversion H12; subst; auto.
Qed.

Lemma subseq_firstn {A} n (l : list A) : subseq (firstn n l) l.
Proof.
  revert n. induction l as [|x l IH]; intros [|n]; simpl; auto.
  apply subseq_nil_l.
Qed.

Lemma subseq_filter {A} (p : A -> bool) (l1 l2 : list A) :
  subseq l1 l2 -> subseq (filter p l1) (filter p l2).
Proof.
  induction 1; simpl; auto; destruct (p x); auto.
Qed.

Lemma subseq_map {A B} (f : A -> B) (l1 l2 : list A) :
  subseq l1 l2 -> subseq (map f l1) (map f l2).
Proof. induction 1; simpl; auto. Qed.

Lemma subseq_In {A} (l1 l2 : list A) x :
  subseq l1 l2 -> In x l1 -> In x l2.
Proof.
  induction 1; simpl; auto.
  intros [->|Hin]; auto.
Qed.

Lemma subseq_Forall {A} (P : A -> Prop) (l1 l2 : list A) :
  subseq l1 l2 -> Forall P l2 -> Forall P l1.
Proof.
  intros Hs Hall. rewrite Forall_forall in *.
  intros x Hx. apply Hall. eapply subseq_In; eauto.
Qed.

Lemma subseq_StronglySorted {A} (R : A -> A -> Prop) (l1 l2 : list A) :
  subseq l1 l2 -> StronglySorted R l2 -> StronglySorted R l1.
Proof.
  induction 1; intros Hs; auto.
  - inversion Hs; subst; auto.
  - inversion Hs; subst. constructor; auto.
    eapply subseq_Forall; eauto.
Qed.

Lemma subseq_length {A} (l1 l2 : list A) :
  subseq l1 l2 -> (List.length l1 <= List.length l2)%nat.
Proof. induction 1; simpl; lia. Qed.

Lemma subseq_slice_to {A} (l : list A) n : subseq (slice_to l n) l.
Proof. unfold slice_to. destruct (0 <=? n); apply subseq_firstn. Qed.

Lemma subseq_list_or {A} (a b : list A) : subseq a b -> subseq (list_or a b) b.
Proof. destruct a; simpl; auto using subseq_refl. Qed.

(** ** Slices *)

Lemma slice_to_length {A} (l : list A) n :
  0 <= n ->
  Z.of_nat (List.length (slice_to l n)) = Z.min n (Z.of_nat (List.length l)).
Proof.
  intros Hn. unfold slice_to.
  destruct (0 <=? n) eqn:E; [|apply Z.leb_gt in E; lia].
  rewrite length_firstn. lia.
Qed.

Lemma slice_to_firstn {A} (l : list A) n :
  0 <= n -> slice_to l n = firstn (Z.to_nat n) l.
Proof.
  intros Hn. unfold slice_to.
  destruct (0 <=? n) eqn:E; [reflexivity|apply Z.leb_gt in E; lia].
Qed.

(** ** The stable descending sort *)

Lemma insert_desc_perm {A} (x : Z * A) l : Permutation (x :: l) (insert_desc x l).
Proof.
  induction l as [|y l IH]; simpl; auto.
  destruct (fst x <? fst y); auto.
  rewrite perm_swap. auto.
Qed.

Lemma sort_reverse_perm {A} (l : list (Z * A)) : Permutation l (sort_reverse l).
Proof.
  induction l as [|x l IH]; simpl; auto.
  rewrite <- insert_desc_perm. auto.
Qed.

Lemma insert_desc_sorted {A} (x : Z * A) l :
  StronglySorted key_ge l -> StronglySorted key_ge (insert_desc x l).
Proof.
  induction 1 as [|y l Hs IH Hall]; simpl.
  - repeat constructor.
  - destruct (fst x <? fst y) eqn:E.
    + apply Z.ltb_lt in E. constructor; auto.
      rewrite Forall_forall in *. intros z Hz.
      apply (Permutation_in _ (Permutation_sym (insert_desc_perm x l))) in Hz.
      destruct Hz as [<-|Hz]; [unfold key_ge; lia|auto].
    + apply Z.ltb_ge in E. constructor; [constructor; auto|].
      constructor; [exact E|].
      rewrite Forall_forall in *. intros z Hz.
      specialize (Hall z Hz). unfold key_ge in *. lia.
Qed.

Lemma sort_reverse_sorted {A} (l : list (Z * A)) :
  StronglySorted key_ge (sort_reverse l).
Proof.
  induction l; simpl; [constructor|apply insert_desc_sorted; assumption].
Qed.

Lemma insert_desc_stable {A} s (x : Z * A) l :
  filter (has_key s) (insert_desc x l) = filter (has_key s) (x :: l).
Proof.
  induction l as [|y l IH]; simpl; auto.
  destruct (fst x <? fst y) eqn:E; simpl; auto.
  apply Z.ltb_lt in E. simpl in IH. rewrite IH.
  unfold has_key.
  destruct (fst x =? s) eqn:Ex; auto.
  apply Z.eqb_eq in Ex.
  destruct (fst y =? s) eqn:Ey; auto.
  apply Z.eqb_eq in Ey. lia.
Qed.

Lemma sort_reverse_stable {A} s (l : list (Z * A)) :
  filter (has_key s) (sort_reverse l) = filter (has_key s) l.
Proof.
  induction l as [|x l IH]; simpl; auto.
  rewrite insert_desc_stable. simpl. rewrite IH. reflexivity.
Qed.

Lemma StronglySorted_split {A} (R : A -> A -> Prop) l1 x l2 :
  StronglySorted R (l1 ++ x :: l2) -> Forall (R x) l2.
Proof.
  induction l1 as [|y l1 IH]; simpl; intros Hs; inversion Hs; subst; auto.
Qed.


Lemma key_ge_descending {A} (l : list (Z * A)) :
  StronglySorted key_ge l <-> descending (map fst l).
Proof.
  unfold descending. induction l as [|x l IH]; simpl.
  - split; constructor.
  - split; intros Hs; inversion Hs; subst; constructor;
      try (apply IH; assumption).
    + rewrite Forall_map. assumption.
    + rewrite Forall_map in *. assumption.
Qed.

Lemma subseq_filter_l {A} (p : A -> bool) (l : list A) : subseq (filter p l) l.
Proof. induction l as [|x l IH]; simpl; auto. destruct (p x); auto. Qed.

Lemma target_eq m count : target m count = count.
Proof. unfold target. destruct (String.eqb m "daily"); reflexivity. Qed.

Lemma subseq_rest {A} (l1 l2 : list A) :
  subseq l1 l2 -> exists rest, Permutation (l1 ++ rest) l2.
Proof.
  induction 1 as [|x l1 l2 _ [rest IH]|x l1 l2 _ [rest IH]].
  - exists []. constructor.
  - exists (x :: rest). rewrite <- Permutation_middle. constructor. exact IH.
  - exists rest. simpl. constructor. exact IH.
Qed.

(** In a list in descending key order, the elements of non-negative key are
    a prefix. *)
Lemma filter_nonnegative_prefix {A} (l : list (Z * A)) :
  StronglySorted key_ge l ->
  filter nonnegative_key l
  = firstn (List.length (filter nonnegative_key l)) l.
Proof.
  induction 1 as [|x l Hs IH Hall]; [reflexivity|].
  simpl. destruct (nonnegative_key x) eqn:E; simpl.
  - f_equal. exact IH.
  - unfold nonnegative_key in E. apply Z.leb_gt in E.
    assert (Hnone : filter nonnegative_key l = []).
    { clear IH Hs. induction l as [|y l IHl]; [reflexivity|].
      inversion Hall; subst. simpl. unfold nonnegative_key at 1.
      unfold key_ge in *.
      destruct (0 <=? fst y) eqn:Ey; [apply Z.leb_le in Ey; lia|].
      apply IHl. assumption. }
    rewrite Hnone. reflexivity.
Qed.

Lemma firstn_min_length {A} k (l : list A) :
  firstn (Nat.min k (List.length l)) l = firstn k l.
Proof.
  destruct (Nat.le_gt_cases k (List.length l)) as [H|H].
  - rewrite Nat.min_l by exact H. reflexivity.
  - rewrite Nat.min_r by lia. rewrite firstn_all.
    symmetry. apply firstn_all2. lia.
Qed.

Lemma slice_to_length_negative {A} (l : list A) n :
  n < 0 ->
  Z.of_nat (List.length (slice_to l n))
  = Z.max 0 (Z.of_nat (List.length l) + n).
Proof.
  intros Hn. unfold slice_to.
  destruct (0 <=? n) eqn:E; [apply Z.leb_le in E; lia|].
  rewrite length_firstn. lia.
Qed.

Lemma subseq_NoDup {A} (l1 l2 : list A) :
  subseq l1 l2 -> NoDup l2 -> NoDup l1.
Proof.
  induction 1; intros Hnd; auto.
  - inversion Hnd; subst. auto.
  - inversion Hnd; subst. constructor; auto.
    intros Hin. apply H2. eapply subseq_In; eauto.
Qed.

(** ** Collections *)

Lemma find_one_update_one {A} k (f : A -> A) coll :
  find_one k (update_one k f coll)
  = match find_one k coll with Some d => Some (f d) | None => None end.
Proof.
  induction coll as [|[k' d] rest IH]; simpl; [reflexivity|].
  destruct (String.eqb k' k) eqn:E; simpl; rewrite E; auto.
Qed.

Lemma update_one_absent {A} k (f : A -> A) coll :
  find_one k coll = None -> update_one k f coll = coll.
Proof.
  induction coll as [|[k' x] rest IH]; simpl; [reflexivity|].
  destruct (String.eqb k' k); [discriminate|].
  intros H. rewrite (IH H). reflexivity.
Qed.

Lemma delete_one_absent {A} k (coll : list (string * A)) :
  find_one k coll = None -> delete_one k coll = coll.
Proof.
  induction coll as [|[k' x] rest IH]; simpl; [reflexivity|].
  destruct (String.eqb k' k); [discriminate|].
  intros H. rewrite (IH H). reflexivity.
Qed.

Lemma update_one_keys {A} k (f : A -> A) coll :
  map fst (update_one k f coll) = map fst coll.
Proof.
  induction coll as [|[k' x] rest IH]; simpl; [reflexivity|].
  destruct (String.eqb k' k); simpl; [reflexivity|]. rewrite IH. reflexivity.
Qed.

Lemma find_one_update_one_other {A} k k' (f : A -> A) coll :
  k' <> k -> find_one k' (update_one k f coll) = find_one k' coll.
Proof.
  intros Hne. induction coll as [|[k0 x] rest IH]; simpl; [reflexivity|].
  destruct (String.eqb k0 k) eqn:E; simpl.
  - apply String.eqb_eq in E. subst k0.
    destruct (String.eqb k k') eqn:E'; [|reflexivity].
    apply String.eqb_eq in E'. congruence.
  - destruct (String.eqb k0 k'); [reflexivity|exact IH].
Qed.

Lemma find_one_delete_one_other {A} k k' (coll : list (string * A)) :
  k' <> k -> find_one k' (delete_one k coll) = find_one k' coll.
Proof.
  intros Hne. induction coll as [|[k0 x] rest IH]; simpl; [reflexivity|].
  destruct (String.eqb k0 k) eqn:E; simpl.
  - apply String.eqb_eq in E. subst k0.
    destruct (String.eqb k k') eqn:E'; [|reflexivity].
    apply String.eqb_eq in E'. congruence.
  - destruct (String.eqb k0 k'); [reflexivity|exact IH].
Qed.

Lemma find_one_none {A} k (coll : list (string * A)) :
  find_one k coll = None <-> ~ In k (map fst coll).
Proof.
  induction coll as [|[k0 x] rest IH]; simpl; [tauto|].
  destruct (String.eqb k0 k) eqn:E.
  - apply String.eqb_eq in E. split; [discriminate|]. intros H. tauto.
  - apply String.eqb_neq in E. rewrite IH. tauto.
Qed.

Lemma find_one_delete_one {A} k (coll : list (string * A)) :
  NoDup (map fst coll) -> find_one k (delete_one k coll) = None.
Proof.
  induction coll as [|[k0 x] rest IH]; simpl; intros Hnd; [reflexivity|].
  inversion Hnd; subst.
  destruct (String.eqb k0 k) eqn:E; simpl.
  - apply String.eqb_eq in E. subst k0. apply find_one_none. assumption.
  - rewrite E. apply IH. assumption.
Qed.

Lemma delete_one_subseq {A} k (coll : list (string * A)) :
  subseq (delete_one k coll) coll.
Proof.
  induction coll as [|[k0 x] rest IH]; simpl; [constructor|].
  destruct (String.eqb k0 k); [apply subseq_skip, subseq_refl|].
  apply subseq_keep. exact IH.
Qed.

Lemma count_matched_zero {A} k (coll : list (string * A)) :
  (count_matched k coll =? 0) = true <-> find_one k coll = None.
Proof.
  unfold count_matched. destruct (find_one k coll); simpl; split;
    congruence.
Qed.

Lemma In_find_one {A} k (x : A) coll :
  In (k, x) coll -> find_one k coll <> None.
Proof.
  intros Hin Hnone. apply find_one_none in Hnone. apply Hnone.
  apply (in_map fst) in Hin. exact Hin.
Qed.


(** ** Loops that read the clock *)

Lemma mapM_inr {A B} (f : A -> Clocked (Exception + B)) l :
  advances f ->
  forall t ys t',
    mapM f l t = (inr ys, t') ->
    (t <= t')%nat /\
    Forall2 (fun x y => exists k k',
                 (t <= k)%nat /\ (k' <= t')%nat /\ f x k = (inr y, k'))
            l ys.
Proof.
  intros Hf. induction l as [|x l IH]; intros t ys t' H.
  - cbn in H. injection H as <- <-. split; [lia|constructor].
  - cbn [mapM] in H. unfold bind_ok in H.
    pose proof (Hf x t) as H1.
    destruct (f x t) as [[e|y] t1] eqn:E; [discriminate|].
    destruct (mapM f l t1) as [[e|ys'] t2] eqn:E2; [discriminate|].
    cbn in H. injection H as <- <-.
    destruct (IH _ _ _ E2) as [Ht IHf]. simpl in H1.
    split; [lia|]. constructor.
    + exists t, t1. repeat split; try lia. exact E.
    + eapply Forall2_impl; [|exact IHf].
      intros a b [k [k' [Hk [Hk' Hab]]]]. exists k, k'.
      repeat split; try lia. exact Hab.
Qed.

Lemma mapM_bound {A B} (f : A -> Clocked (Exception + B)) l :
  (forall x t, (snd (f x t) <= S t)%nat) ->
  forall t, (snd (mapM f l t) <= t + List.length l)%nat.
Proof.
  intros Hf. induction l as [|x l IH]; intros t.
  - cbn. lia.
  - cbn [mapM]. unfold bind_ok.
    pose proof (Hf x t) as H1.
    destruct (f x t) as [[e|y] t1]; simpl in *; [lia|].
    pose proof (IH t1) as H2.
    destruct (mapM f l t1) as [[e|ys'] t2]; simpl in *; lia.
Qed.

Lemma mapM_total {A B} (f : A -> Clocked (Exception + B)) l :
  (forall x k, In x l -> exists y k', f x k = (inr y, k')) ->
  forall t, exists ys t', mapM f l t = (inr ys, t').
Proof.
  induction l as [|x l IH]; intros Hf t.
  - exists [], t. reflexivity.
  - cbn [mapM]. unfold bind_ok.
    destruct (Hf x t (or_introl eq_refl)) as [y [t1 E]]. rewrite E.
    destruct (IH (fun a k Ha => Hf a k (or_intror Ha)) t1) as [ys [t2 E2]].
    rewrite E2. exists (y :: ys), t2. reflexivity.
Qed.

(** When one element makes [f] raise [e] at every clock index and [f]
    raises nothing else, the loop raises [e]. *)
Lemma mapM_raises {A B} (f : A -> Clocked (Exception + B)) l e :
  (forall x k e' k', f x k = (inl e', k') -> e' = e) ->
  (exists x, In x l /\ forall k, exists k', f x k = (inl e, k')) ->
  forall t, exists t', mapM f l t = (inl e, t').
Proof.
  intros Honly. induction l as [|x l IH]; intros [x0 [Hin Hx0]] t.
  - destruct Hin.
  - cbn [mapM]. unfold bind_ok.
    destruct (f x t) as [[e'|y] t1] eqn:E.
    + rewrite (Honly _ _ _ _ E). eexists. reflexivity.
    + destruct Hin as [->|Hin].
      * destruct (Hx0 t) as [k' Hk']. congruence.
      * destruct (IH (ex_intro _ x0 (conj Hin Hx0)) t1) as [t2 E2].
        rewrite E2. eexists. reflexivity.
Qed.

Lemma filterM_inr {A} (p : A -> Clocked (Exception + bool)) l :
  advances p ->
  forall t ys t',
    filterM p l t = (inr ys, t') ->
    (t <= t')%nat /\
    subseq ys l /\
    Forall (fun x => exists k k',
                (t <= k)%nat /\ (k' <= t')%nat /\ p x k = (inr true, k')) ys /\
    (forall x, In x l -> ~ In x ys ->
               exists k k',
                 (t <= k)%nat /\ (k' <= t')%nat /\ p x k = (inr false, k')) /\
    Forall (fun x => exists b k k', p x k = (inr b, k')) l.
Proof.
  intros Hp. induction l as [|x l IH]; intros t ys t' H.
  - cbn in H. injection H as <- <-.
    repeat split; try lia; try constructor. intros x [].
  - cbn [filterM] in H. unfold bind_ok in H.
    pose proof (Hp x t) as H1.
    destruct (p x t) as [[e|b] t1] eqn:E; [discriminate|].
    destruct (filterM p l t1) as [[e|ys'] t2] eqn:E2; [discriminate|].
    cbn in H. injection H as <- <-.
    destruct (IH _ _ _ E2) as [Ht [Hsub [Hkept [Hdropped Hall]]]].
    simpl in H1.
    assert (Hkept' : Forall (fun x => exists k k',
                (t <= k)%nat /\ (k' <= t2)%nat /\ p x k = (inr true, k')) ys').
    { eapply Forall_impl; [|exact Hkept].
      intros a [k [k' [Hk [Hk' Ha]]]]. exists k, k'.
      repeat split; try lia. exact Ha. }
    split; [lia|].
    split; [destruct b; constructor; exact Hsub|].
    split.
    { destruct b; [constructor|]; auto.
      exists t, t1. repeat split; try lia. exact E. }
    split.
    { intros a [<-|Ha] Hnot.
      - destruct b.
        + exfalso. apply Hnot. left. reflexivity.
        + exists t, t1. repeat split; try lia. exact E.
      - assert (Hnot' : ~ In a ys')
          by (intros Hin; apply Hnot; destruct b; [right|]; exact Hin).
        destruct (Hdropped a Ha Hnot') as [k [k' [Hk [Hk' Hpa]]]].
        exists k, k'. repeat split; try lia. exact Hpa. }
    constructor; [exists b, t, t1; exact E|exact Hall].
Qed.

Lemma filterM_bound {A} (p : A -> Clocked (Exception + bool)) l :
  (forall x t, (snd (p x t) <= S t)%nat) ->
  forall t, (snd (filterM p l t) <= t + List.length l)%nat.
Proof.
  intros Hp. induction l as [|x l IH]; intros t.
  - cbn. lia.
  - cbn [filterM]. unfold bind_ok.
    pose proof (Hp x t) as H1.
    destruct (p x t) as [[e|b] t1]; simpl in *; [lia|].
    pose proof (IH t1) as H2.
    destruct (filterM p l t1) as [[e|ys'] t2]; simpl in *; lia.
Qed.

Lemma filterM_total {A} (p : A -> Clocked (Exception + bool)) l :
  (forall x k, In x l -> exists b k', p x k = (inr b, k')) ->
  forall t, exists ys t', filterM p l t = (inr ys, t').
Proof.
  induction l as [|x l IH]; intros Hp t.
  - exists [], t. reflexivity.
  - cbn [filterM]. unfold bind_ok.
    destruct (Hp x t (or_introl eq_refl)) as [b [t1 E]]. rewrite E.
    destruct (IH (fun a k Ha => Hp a k (or_intror Ha)) t1) as [ys [t2 E2]].
    rewrite E2. eexists. eexists. reflexivity.
Qed.

Lemma Forall2_Forall_r {A B} (R : A -> B -> Prop) l l' :
  Forall2 R l l' -> Forall (fun y => exists x, In x l /\ R x y) l'.
Proof.
  induction 1; constructor.
  - eexists; split; [left; reflexivity|assumption].
  - eapply Forall_impl; [|eassumption].
    intros b [a [Ha HR]]. exists a. split; [right|]; assumption.
Qed.

Lemma Forall2_length_eq {A B} (R : A -> B -> Prop) l l' :
  Forall2 R l l' -> List.length l' = List.length l.
Proof. induction 1; simpl; congruence. Qed.

(** ** Whole days *)

Lemma days_whole_days td : days td = whole_days td.
Proof. reflexivity. Qed.

Lemma days_timedelta_of_days n : days (timedelta_of_days n) = n.
Proof.
  unfold days, timedelta_of_days. apply Z.div_mul. discriminate.
Qed.

Lemma whole_days_ge_iff elapsed n :
  n <= whole_days elapsed <-> n * 86400000000 <= elapsed.
Proof.
  unfold whole_days. split; intros H.
  - pose proof (Z.mul_div_le elapsed 86400000000 ltac:(lia)). nia.
  - apply Z.div_le_lower_bound; lia.
Qed.


Lemma whole_days_bounds elapsed :
  whole_days elapsed * 86400000000 <= elapsed
  < (whole_days elapsed + 1) * 86400000000.
Proof.
  split.
  - apply whole_days_ge_iff. lia.
  - destruct (Z_lt_le_dec elapsed ((whole_days elapsed + 1) * 86400000000))
      as [H|H]; [exact H|].
    apply whole_days_ge_iff in H. lia.
Qed.

Lemma whole_days_mono a b : a <= b -> whole_days a <= whole_days b.
Proof. intros H. unfold whole_days. apply Z.div_le_mono; [reflexivity|exact H]. Qed.


(** ** The engine's functions, one call at a time *)

Section EngineFacts.

Variable fromisoformat : string -> option datetime.
Variable clk : Clock.

Lemma days_elapsed_aware last t :
  aware last = true ->
  days_elapsed clk last t = (inr (whole_days (clk t - micros last)), S t).
Proof.
  intros H. unfold days_elapsed, bind, ret, now_utc, datetime_sub. simpl.
  rewrite H. reflexivity.
Qed.

Lemma days_elapsed_naive last t :
  aware last = false ->
  days_elapsed clk last t = (inl TypeError, S t).
Proof.
  intros H. unfold days_elapsed, bind, ret, now_utc, datetime_sub. simpl.
  rewrite H. reflexivity.
Qed.

(** With an aware timestamp, or none, the three functions return what the
    specification's words give at the reading they take. *)
Lemma is_due_aware c t :
  aware_timestamp fromisoformat (doc c) = true ->
  is_due fromisoformat clk c t
  = (inr (due_at fromisoformat (clk t) (doc c)),
     match last_contact fromisoformat (doc c) with
     | None => t
     | Some _ => S t
     end).
Proof.
  unfold aware_timestamp, is_due, due_at, get_last, get_frequencyDays.
  change (match lastContactedAt (doc c) with
          | Absent => None
          | At d => Some d
          | Raw s => fromisoformat s
          end) with (last_contact fromisoformat (doc c)).
  change (match frequencyDays (doc c) with Some f => f | None => 30 end)
    with (frequency (doc c)).
  destruct (last_contact fromisoformat (doc c)) as [last|]; intros H;
    [|reflexivity].
  unfold bind_ok. rewrite (days_elapsed_aware _ _ H). reflexivity.
Qed.

Lemma overdue_score_aware c t :
  aware_timestamp fromisoformat (doc c) = true ->
  overdue_score fromisoformat clk c t
  = (inr (score_at fromisoformat (clk t) (doc c)),
     match last_contact fromisoformat (doc c) with
     | None => t
     | Some _ => S t
     end).
Proof.
  unfold aware_timestamp, overdue_score, score_at, get_last, get_frequencyDays.
  change (match lastContactedAt (doc c) with
          | Absent => None
          | At d => Some d
          | Raw s => fromisoformat s
          end) with (last_contact fromisoformat (doc c)).
  change (match frequencyDays (doc c) with Some f => f | None => 30 end)
    with (frequency (doc c)).
  destruct (last_contact fromisoformat (doc c)) as [last|]; intros H;
    [|reflexivity].
  unfold bind_ok. rewrite (days_elapsed_aware _ _ H). reflexivity.
Qed.

Lemma days_since_aware c t :
  aware_timestamp fromisoformat (doc c) = true ->
  days_since clk (get_last fromisoformat c) t
  = (inr (match last_contact fromisoformat (doc c) with
          | None => None
          | Some last => Some (whole_days (clk t - micros last))
          end),
     match last_contact fromisoformat (doc c) with
     | None => t
     | Some _ => S t
     end).
Proof.
  unfold aware_timestamp, days_since, get_last.
  change (match lastContactedAt (doc c) with
          | Absent => None
          | At d => Some d
          | Raw s => fromisoformat s
          end) with (last_contact fromisoformat (doc c)).
  destruct (last_contact fromisoformat (doc c)) as [last|]; intros H;
    [|reflexivity].
  unfold bind_ok. rewrite (days_elapsed_aware _ _ H). reflexivity.
Qed.

(** With a naive timestamp they raise, the clock read once. *)
Lemma naive_raises c t :
  aware_timestamp fromisoformat (doc c) = false ->
  is_due fromisoformat clk c t = (inl TypeError, S t) /\
  overdue_score fromisoformat clk c t = (inl TypeError, S t) /\
  days_since clk (get_last fromisoformat c) t = (inl TypeError, S t).
Proof.
  unfold aware_timestamp, is_due, overdue_score, days_since, get_last.
  change (match lastContactedAt (doc c) with
          | Absent => None
          | At d => Some d
          | Raw s => fromisoformat s
          end) with (last_contact fromisoformat (doc c)).
  destruct (last_contact fromisoformat (doc c)) as [last|]; intros H;
    [|discriminate].
  unfold bind_ok. rewrite (days_elapsed_naive _ _ H). repeat split.
Qed.

Lemma overdue_score_inr c t s t' :
  overdue_score fromisoformat clk c t = (inr s, t') ->
  aware_timestamp fromisoformat (doc c) = true.
Proof.
  intros H. destruct (aware_timestamp fromisoformat (doc c)) eqn:E;
    [reflexivity|].
  destruct (naive_raises c t E) as [_ [H' _]]. congruence.
Qed.

Lemma is_due_inr c t b t' :
  is_due fromisoformat clk c t = (inr b, t') ->
  aware_timestamp fromisoformat (doc c) = true.
Proof.
  intros H. destruct (aware_timestamp fromisoformat (doc c)) eqn:E;
    [reflexivity|].
  destruct (naive_raises c t E) as [H' _]. congruence.
Qed.

Lemma overdue_score_only_TypeError c t e t' :
  overdue_score fromisoformat clk c t = (inl e, t') -> e = TypeError.
Proof.
  intros H. destruct (aware_timestamp fromisoformat (doc c)) eqn:E.
  - rewrite (overdue_score_aware c t E) in H. discriminate.
  - destruct (naive_raises c t E) as [_ [H' _]]. congruence.
Qed.

Lemma overdue_score_advances : advances (overdue_score fromisoformat clk).
Proof.
  intros c t. destruct (aware_timestamp fromisoformat (doc c)) eqn:E.
  - rewrite (overdue_score_aware c t E). simpl.
    destruct (last_contact fromisoformat (doc c)); lia.
  - destruct (naive_raises c t E) as [_ [-> _]]. simpl. lia.
Qed.

Lemma overdue_score_step c t :
  (snd (overdue_score fromisoformat clk c t) <= S t)%nat.
Proof.
  destruct (aware_timestamp fromisoformat (doc c)) eqn:E.
  - rewrite (overdue_score_aware c t E). simpl.
    destruct (last_contact fromisoformat (doc c)); lia.
  - destruct (naive_raises c t E) as [_ [-> _]]. simpl. lia.
Qed.

Lemma is_due_advances : advances (is_due fromisoformat clk).
Proof.
  intros c t. destruct (aware_timestamp fromisoformat (doc c)) eqn:E.
  - rewrite (is_due_aware c t E). simpl.
    destruct (last_contact fromisoformat (doc c)); lia.
  - destruct (naive_raises c t E) as [-> _]. simpl. lia.
Qed.

Lemma is_due_step c t :
  (snd (is_due fromisoformat clk c t) <= S t)%nat.
Proof.
  destruct (aware_timestamp fromisoformat (doc c)) eqn:E.
  - rewrite (is_due_aware c t E). simpl.
    destruct (last_contact fromisoformat (doc c)); lia.
  - destruct (naive_raises c t E) as [-> _]. simpl. lia.
Qed.

Lemma days_since_advances c t :
  (t <= snd (days_since clk (get_last fromisoformat c) t) <= S t)%nat.
Proof.
  destruct (aware_timestamp fromisoformat (doc c)) eqn:E.
  - rewrite (days_since_aware c t E). simpl.
    destruct (last_contact fromisoformat (doc c)); lia.
  - destruct (naive_raises c t E) as [_ [_ ->]]. simpl. lia.
Qed.

End EngineFacts.

(** ** The pipeline of [get_suggestions] *)

Lemma map_stored_snd (l : list (Z * Contact)) :
  map stored_contact (map snd l) = map stored l.
Proof. rewrite map_map. reflexivity. Qed.

Section Pipeline.

Variable fromisoformat : string -> option datetime.
Variable clk : Clock.

Lemma scored_in_widen t t' u u' kc :
  (u <= t)%nat -> (t' <= u')%nat ->
  scored_in fromisoformat clk t t' kc -> scored_in fromisoformat clk u u' kc.
Proof.
  intros Hu Hu'. unfold scored_in.
  destruct (last_contact fromisoformat (doc (snd kc))); [|auto].
  intros [k [Hk Hs]]. exists k. split; [lia|exact Hs].
Qed.

Lemma due_in_widen t t' u u' c :
  (u <= t)%nat -> (t' <= u')%nat ->
  due_in fromisoformat clk t t' c -> due_in fromisoformat clk u u' c.
Proof.
  intros Hu Hu'. unfold due_in.
  destruct (last_contact fromisoformat c); [|auto].
  intros [k [Hk Hs]]. exists k. split; [lia|exact Hs].
Qed.

Lemma not_due_in_widen t t' u u' c :
  (u <= t)%nat -> (t' <= u')%nat ->
  not_due_in fromisoformat clk t t' c -> not_due_in fromisoformat clk u u' c.
Proof.
  intros Hu Hu'. unfold not_due_in.
  destruct (last_contact fromisoformat c); [|auto].
  intros [k [Hk Hs]]. exists k. split; [lia|exact Hs].
Qed.

Lemma annotated_in_widen t t' u u' c :
  (u <= t)%nat -> (t' <= u')%nat ->
  annotated_in fromisoformat clk t t' c ->
  annotated_in fromisoformat clk u u' c.
Proof.
  intros Hu Hu'. unfold annotated_in.
  destruct (last_contact fromisoformat (doc c)); [|auto].
  intros [k [Hk Hs]]. exists k. split; [lia|exact Hs].
Qed.

Lemma load_contacts_stored d :
  map stored_contact (load_contacts d) = contact d.
Proof.
  unfold load_contacts. rewrite map_map. unfold stored_contact. simpl.
  induction (contact d) as [|[k c] l IH]; simpl; congruence.
Qed.

Lemma load_contacts_aware d :
  timestamps_aware fromisoformat d = true ->
  Forall (fun c => aware_timestamp fromisoformat (doc c) = true)
         (load_contacts d).
Proof.
  unfold timestamps_aware, load_contacts. intros H.
  rewrite forallb_forall in H. rewrite Forall_map, Forall_forall.
  intros kd Hkd. simpl. apply H. exact Hkd.
Qed.

(** *** Scoring and sorting *)

Lemma score_items_inr items t keyed t1 :
  score_items fromisoformat clk items t = (inr keyed, t1) ->
  (t <= t1 <= t + List.length items)%nat /\
  map snd keyed = items /\
  Forall (scored_in fromisoformat clk t t1) keyed /\
  Forall (fun c => aware_timestamp fromisoformat (doc c) = true) items.
Proof.
  intros H.
  pose proof (mapM_bound
                (fun c => k <-- overdue_score fromisoformat clk c ;; ok (k, c))
                items) as Hbound.
  assert (Hstep : forall c t0,
             (snd ((k <-- overdue_score fromisoformat clk c ;; ok (k, c)) t0)
              <= S t0)%nat).
  { intros c t0. unfold bind_ok.
    pose proof (overdue_score_step fromisoformat clk c t0) as Hs.
    destruct (overdue_score fromisoformat clk c t0) as [[e|s] t0']; exact Hs. }
  specialize (Hbound Hstep t). unfold score_items in H. rewrite H in Hbound.
  simpl in Hbound.
  assert (Hadv : advances
            (fun c => k <-- overdue_score fromisoformat clk c ;; ok (k, c))).
  { intros c t0. unfold bind_ok.
    pose proof (overdue_score_advances fromisoformat clk c t0) as Hs.
    destruct (overdue_score fromisoformat clk c t0) as [[e|s] t0']; exact Hs. }
  destruct (mapM_inr _ items Hadv t keyed t1 H) as [Ht HF].
  split; [lia|].
  assert (Hall : Forall2 (fun c kc =>
             snd kc = c /\ scored_in fromisoformat clk t t1 kc /\
             aware_timestamp fromisoformat (doc c) = true) items keyed).
  { eapply Forall2_impl; [|exact HF].
    intros c kc [k [k' [Hk [Hk' Hf]]]]. unfold bind_ok in Hf.
    destruct (overdue_score fromisoformat clk c k) as [[e|s] k0] eqn:E;
      [discriminate|].
    cbn in Hf. injection Hf as <- <-.
    pose proof (overdue_score_inr _ _ _ _ _ _ E) as Haw.
    rewrite (overdue_score_aware _ _ c k Haw) in E.
    injection E as <- <-.
    split; [reflexivity|]. split; [|exact Haw].
    unfold scored_in, score_at. simpl.
    destruct (last_contact fromisoformat (doc c)); [|reflexivity].
    exists k. split; [lia|reflexivity]. }
  clear HF H Hbound Ht. induction Hall as [|c kc l l' [Hs [Hsc Haw]] _ IH].
  - repeat split; constructor.
  - destruct IH as [IH1 [IH2 IH3]]. simpl. rewrite IH1, Hs.
    repeat split; constructor; assumption.
Qed.

Lemma score_items_total items t :
  Forall (fun c => aware_timestamp fromisoformat (doc c) = true) items ->
  exists keyed t1, score_items fromisoformat clk items t = (inr keyed, t1).
Proof.
  intros Haw. apply mapM_total. intros c k Hc.
  rewrite Forall_forall in Haw. unfold bind_ok.
  rewrite (overdue_score_aware _ _ c k (Haw c Hc)). eexists. eexists.
  reflexivity.
Qed.

Lemma sort_items_inv items t sorted t1 :
  sort_items fromisoformat clk items t = (inr sorted, t1) ->
  exists keyed,
    score_items fromisoformat clk items t = (inr keyed, t1) /\
    sorted = sort_reverse keyed.
Proof.
  unfold sort_items, bind_ok.
  destruct (score_items fromisoformat clk items t) as [[e|keyed] t0];
    [discriminate|].
  cbn. intros H. injection H as <- <-. exists keyed. split; reflexivity.
Qed.

Lemma sort_items_inr items t sorted t1 :
  sort_items fromisoformat clk items t = (inr sorted, t1) ->
  (t <= t1 <= t + List.length items)%nat /\
  Permutation (map snd sorted) items /\
  Permutation (map stored sorted) (map stored_contact items) /\
  StronglySorted key_ge sorted /\
  Forall (scored_in fromisoformat clk t t1) sorted /\
  (forall s, subseq (map stored (filter (has_key s) sorted))
                    (map stored_contact items)) /\
  Forall (fun c => aware_timestamp fromisoformat (doc c) = true) items.
Proof.
  intros H. destruct (sort_items_inv _ _ _ _ H) as [keyed [Hk ->]].
  destruct (score_items_inr _ _ _ _ Hk) as [Ht [Hsnd [Hsc Haw]]].
  split; [exact Ht|].
  split; [rewrite <- sort_reverse_perm, Hsnd; reflexivity|].
  split; [rewrite <- sort_reverse_perm, <- Hsnd, map_stored_snd; reflexivity|].
  split; [apply sort_reverse_sorted|].
  split; [eapply Permutation_Forall; [apply sort_reverse_perm|exact Hsc]|].
  split; [|exact Haw].
  intros s. rewrite sort_reverse_stable, <- Hsnd, map_stored_snd.
  apply subseq_map, subseq_filter_l.
Qed.

Lemma sort_items_total items t :
  Forall (fun c => aware_timestamp fromisoformat (doc c) = true) items ->
  exists sorted t1, sort_items fromisoformat clk items t = (inr sorted, t1).
Proof.
  intros Haw. destruct (score_items_total items t Haw) as [keyed [t1 H]].
  unfold sort_items, bind_ok. rewrite H. eexists. eexists. reflexivity.
Qed.

Lemma sorted_aware items t sorted t1 :
  sort_items fromisoformat clk items t = (inr sorted, t1) ->
  Forall (fun kc => aware_timestamp fromisoformat (doc (snd kc)) = true) sorted.
Proof.
  intros H. destruct (sort_items_inr _ _ _ _ H) as [_ [Hperm [_ [_ [_ [_ Haw]]]]]].
  apply (Permutation_Forall (Permutation_sym Hperm)) in Haw.
  rewrite Forall_map in Haw. exact Haw.
Qed.

(** *** The due filter *)

Lemma due_items_inr sorted t1 due t2 :
  due_items fromisoformat clk sorted t1 = (inr due, t2) ->
  (t1 <= t2 <= t1 + List.length sorted)%nat /\
  subseq due sorted /\
  Forall (fun kc => due_in fromisoformat clk t1 t2 (doc (snd kc))) due /\
  (forall kc, In kc sorted -> ~ In kc due ->
              not_due_in fromisoformat clk t1 t2 (doc (snd kc))) /\
  Forall (fun kc => aware_timestamp fromisoformat (doc (snd kc)) = true) sorted.
Proof.
  intros H.
  pose proof (filterM_bound (fun kc => is_due fromisoformat clk (snd kc)) sorted
                (fun kc t0 => is_due_step fromisoformat clk (snd kc) t0) t1)
    as Hbound.
  unfold due_items in H. rewrite H in Hbound. simpl in Hbound.
  destruct (filterM_inr (fun kc => is_due fromisoformat clk (snd kc)) sorted
              (fun kc t0 => is_due_advances fromisoformat clk (snd kc) t0)
              t1 due t2 H) as [Ht [Hsub [Hkept [Hdropped Hall]]]].
  split; [lia|]. split; [exact Hsub|].
  split.
  { eapply Forall_impl; [|exact Hkept].
    intros kc [k [k' [Hk [Hk' Hd]]]].
    pose proof (is_due_inr _ _ _ _ _ _ Hd) as Haw.
    rewrite (is_due_aware _ _ (snd kc) k Haw) in Hd.
    injection Hd as Hd Htick. unfold due_in.
    destruct (last_contact fromisoformat (doc (snd kc))); [|exact I].
    exists k. split; [lia|exact Hd]. }
  split.
  { intros kc Hin Hnot.
    destruct (Hdropped kc Hin Hnot) as [k [k' [Hk [Hk' Hd]]]].
    pose proof (is_due_inr _ _ _ _ _ _ Hd) as Haw.
    rewrite (is_due_aware _ _ (snd kc) k Haw) in Hd.
    injection Hd as Hd Htick. unfold not_due_in.
    unfold due_at in Hd.
    destruct (last_contact fromisoformat (doc (snd kc))) as [last|] eqn:E;
      [|discriminate].
    exists k. split; [lia|]. unfold due_at. rewrite E. exact Hd. }
  eapply Forall_impl; [|exact Hall].
  intros kc [b [k [k' Hd]]]. eapply is_due_inr. exact Hd.
Qed.

Lemma due_items_total sorted t1 :
  Forall (fun kc => aware_timestamp fromisoformat (doc (snd kc)) = true) sorted ->
  exists due t2, due_items fromisoformat clk sorted t1 = (inr due, t2).
Proof.
  intros Haw. apply filterM_total. intros kc k Hkc.
  rewrite Forall_forall in Haw.
  rewrite (is_due_aware _ _ (snd kc) k (Haw kc Hkc)). eexists. eexists.
  reflexivity.
Qed.

(** *** The annotation *)

Lemma annotate_inr result t2 out t3 :
  annotate fromisoformat clk result t2 = (inr out, t3) ->
  (t2 <= t3 <= t2 + List.length result)%nat /\
  Forall2 (fun kc kc' =>
             fst kc' = fst kc /\
             id (snd kc') = id (snd kc) /\
             doc (snd kc') = doc (snd kc) /\
             annotated_in fromisoformat clk t2 t3 (snd kc'))
          result out.
Proof.
  intros H.
  set (f := fun kc : Z * Contact =>
              d <-- days_since clk (get_last fromisoformat (snd kc)) ;;
              ok (fst kc, set_daysSince (snd kc) d)).
  assert (Hstep : forall kc t0, (t0 <= snd (f kc t0) <= S t0)%nat).
  { intros kc t0. unfold f, bind_ok.
    pose proof (days_since_advances fromisoformat clk (snd kc) t0) as Hs.
    destruct (days_since clk (get_last fromisoformat (snd kc)) t0)
      as [[e|s] t0']; exact Hs. }
  pose proof (mapM_bound f result (fun kc t0 => proj2 (Hstep kc t0)) t2)
    as Hbound.
  unfold annotate in H. fold f in H. rewrite H in Hbound. simpl in Hbound.
  destruct (mapM_inr f result (fun kc t0 => proj1 (Hstep kc t0)) t2 out t3 H)
    as [Ht HF].
  split; [lia|].
  eapply Forall2_impl; [|exact HF].
  intros kc kc' [k [k' [Hk [Hk' Hf]]]]. unfold f, bind_ok in Hf.
  destruct (days_since clk (get_last fromisoformat (snd kc)) k)
    as [[e|n] k0] eqn:E; [discriminate|].
  cbn in Hf. injection Hf as <- <-. simpl.
  repeat split.
  assert (Haw : aware_timestamp fromisoformat (doc (snd kc)) = true).
  { destruct (aware_timestamp fromisoformat (doc (snd kc))) eqn:Ea;
      [reflexivity|].
    destruct (naive_raises fromisoformat clk (snd kc) k Ea) as [_ [_ H']].
    congruence. }
  rewrite (days_since_aware _ _ (snd kc) k Haw) in E.
  injection E as <- <-. unfold annotated_in. simpl.
  destruct (last_contact fromisoformat (doc (snd kc))); [|reflexivity].
  exists k. split; [lia|reflexivity].
Qed.

Lemma annotate_total result t2 :
  Forall (fun kc => aware_timestamp fromisoformat (doc (snd kc)) = true) result ->
  exists out t3, annotate fromisoformat clk result t2 = (inr out, t3).
Proof.
  intros Haw. apply mapM_total. intros kc k Hkc.
  rewrite Forall_forall in Haw. unfold bind_ok.
  rewrite (days_since_aware _ _ (snd kc) k (Haw kc Hkc)). eexists. eexists.
  reflexivity.
Qed.

Lemma annotated_keys (R : Z * Contact -> Z * Contact -> Prop) result out :
  (forall a b, R a b -> fst b = fst a) ->
  Forall2 R result out -> map fst out = map fst result.
Proof.
  intros HR. induction 1 as [|a b l l' Hab _ IH]; simpl; [reflexivity|].
  rewrite (HR _ _ Hab), IH. reflexivity.
Qed.

Lemma annotated_stored (R : Z * Contact -> Z * Contact -> Prop) result out :
  (forall a b, R a b -> fst b = fst a /\ stored b = stored a) ->
  Forall2 R result out ->
  map stored out = map stored result /\
  forall s, map stored (filter (has_key s) out)
            = map stored (filter (has_key s) result).
Proof.
  intros HR. induction 1 as [|a b l l' Hab _ [IH1 IH2]]; simpl.
  - split; reflexivity.
  - destruct (HR _ _ Hab) as [Hk Hs]. split.
    + rewrite Hs, IH1. reflexivity.
    + intros s. replace (has_key s b) with (has_key s a)
        by (unfold has_key; rewrite Hk; reflexivity).
      destruct (has_key s a); simpl; rewrite IH2; [rewrite Hs|]; reflexivity.
Qed.

(** *** The whole run *)

Lemma suggest_inv items m count t out t3 :
  suggest fromisoformat clk items m count t = (inr out, t3) ->
  exists sorted t1 due t2,
    sort_items fromisoformat clk items t = (inr sorted, t1) /\
    due_items fromisoformat clk sorted t1 = (inr due, t2) /\
    annotate fromisoformat clk
      (slice_to (list_or due sorted) (target m count)) t2 = (inr out, t3).
Proof.
  unfold suggest, bind_ok.
  destruct (sort_items fromisoformat clk items t) as [[e|sorted] t1];
    [discriminate|].
  destruct (due_items fromisoformat clk sorted t1) as [[e|due] t2] eqn:Hd;
    [discriminate|].
  intros H. exists sorted, t1, due, t2.
  split; [reflexivity|]. split; [exact Hd|]. exact H.
Qed.

Lemma suggest_total items m count t :
  Forall (fun c => aware_timestamp fromisoformat (doc c) = true) items ->
  exists out t3, suggest fromisoformat clk items m count t = (inr out, t3).
Proof.
  intros Haw.
  destruct (sort_items_total items t Haw) as [sorted [t1 Hs]].
  pose proof (sorted_aware _ _ _ _ Hs) as Hsaw.
  destruct (due_items_total sorted t1 Hsaw) as [due [t2 Hd]].
  destruct (due_items_inr _ _ _ _ Hd) as [_ [Hsub _]].
  assert (Hraw : Forall
            (fun kc => aware_timestamp fromisoformat (doc (snd kc)) = true)
            (slice_to (list_or due sorted) (target m count))).
  { eapply subseq_Forall; [|exact Hsaw].
    eapply subseq_trans; [apply subseq_slice_to|].
    apply subseq_list_or. exact Hsub. }
  destruct (annotate_total _ t2 Hraw) as [out [t3 Ha]].
  exists out, t3. unfold suggest, bind_ok. rewrite Hs, Hd. exact Ha.
Qed.

Lemma result_pool_run_inr items t sorted pool t2 :
  result_pool_run fromisoformat clk items t = (inr (sorted, pool), t2) <->
  exists t1 due,
    sort_items fromisoformat clk items t = (inr sorted, t1) /\
    due_items fromisoformat clk sorted t1 = (inr due, t2) /\
    pool = list_or due sorted.
Proof.
  unfold result_pool_run, bind_ok. split.
  - destruct (sort_items fromisoformat clk items t) as [[e|sorted'] t1];
      [discriminate|].
    destruct (due_items fromisoformat clk sorted' t1) as [[e|due] t2'] eqn:Hd;
      [discriminate|].
    cbn. intros H. injection H as <- <- <-. exists t1, due.
    split; [reflexivity|]. split; [exact Hd|reflexivity].
  - intros [t1 [due [Hs [Hd ->]]]]. rewrite Hs, Hd. reflexivity.
Qed.

Lemma get_suggestions_some d m count t :
  get_suggestions fromisoformat clk (Some d) m count t
  = (match fst (suggest fromisoformat clk (load_contacts d) m count t) with
     | inl e => inl e
     | inr scored => inr (map snd scored)
     end,
     snd (suggest fromisoformat clk (load_contacts d) m count t)).
Proof.
  unfold get_suggestions, bind_ok. simpl.
  destruct (suggest fromisoformat clk (load_contacts d) m count t)
    as [[e|scored] t']; reflexivity.
Qed.

Lemma get_suggestions_inr d m count t scored t' :
  suggest fromisoformat clk (load_contacts d) m count t = (inr scored, t') ->
  get_suggestions fromisoformat clk (Some d) m count t
  = (inr (map snd scored), t').
Proof. intros H. rewrite get_suggestions_some, H. reflexivity. Qed.

Lemma get_suggestions_inv d m count t out t' :
  get_suggestions fromisoformat clk (Some d) m count t = (inr out, t') ->
  exists scored,
    suggest fromisoformat clk (load_contacts d) m count t = (inr scored, t') /\
    out = map snd scored.
Proof.
  rewrite get_suggestions_some.
  destruct (suggest fromisoformat clk (load_contacts d) m count t)
    as [[e|scored] t0]; simpl; intros H; [discriminate|].
  injection H as <- <-. exists scored. split; reflexivity.
Qed.

(** Everything a successful run establishes. *)
Lemma suggest_facts items m count t out t3 :
  suggest fromisoformat clk items m count t = (inr out, t3) ->
  exists sorted t1 due t2,
    sort_items fromisoformat clk items t = (inr sorted, t1) /\
    due_items fromisoformat clk sorted t1 = (inr due, t2) /\
    (t <= t1 <= t2)%nat /\ (t2 <= t3 <= t + 3 * List.length items)%nat /\
    Forall2 (fun kc kc' =>
               fst kc' = fst kc /\
               id (snd kc') = id (snd kc) /\
               doc (snd kc') = doc (snd kc) /\
               annotated_in fromisoformat clk t2 t3 (snd kc'))
            (slice_to (list_or due sorted) (target m count)) out /\
    subseq (slice_to (list_or due sorted) (target m count)) sorted.
Proof.
  intros H.
  destruct (suggest_inv _ _ _ _ _ _ H) as [sorted [t1 [due [t2 [Hs [Hd Ha]]]]]].
  exists sorted, t1, due, t2.
  destruct (sort_items_inr _ _ _ _ Hs) as [Ht1 [Hperm _]].
  destruct (due_items_inr _ _ _ _ Hd) as [Ht2 [Hsub _]].
  destruct (annotate_inr _ _ _ _ Ha) as [Ht3 HF].
  assert (Hslice : subseq (slice_to (list_or due sorted) (target m count)) sorted).
  { eapply subseq_trans; [apply subseq_slice_to|].
    apply subseq_list_or. exact Hsub. }
  pose proof (subseq_length _ _ Hslice) as Hlen.
  pose proof (Permutation_length Hperm) as Hlen'. rewrite length_map in Hlen'.
  split; [exact Hs|]. split; [exact Hd|].
  split; [lia|]. split; [lia|]. split; [exact HF|exact Hslice].
Qed.

End Pipeline.

(** ** The seed data *)

Example demo_suggestions :
  fst (get_suggestions_request demo_fromisoformat demo_clock (Some demo_db)
         (Some "daily") (Some 3) 0%nat)
  = inr [set_daysSince {| id := TAYLOR; doc := taylor_doc; daysSince := None |}
           None;
         set_daysSince {| id := JAMIE; doc := jamie_doc; daysSince := None |}
           (Some 90);
         set_daysSince {| id := ALEX; doc := alex_doc; daysSince := None |}
           (Some 30)].
Proof. vm_compute. reflexivity. Qed.

Example demo_suggestions_one :
  fst (get_suggestions_request demo_fromisoformat demo_clock (Some demo_db)
         (Some "daily") (Some 1) 0%nat)
  = inr [set_daysSince {| id := TAYLOR; doc := taylor_doc; daysSince := None |}
           None].
Proof. vm_compute. reflexivity. Qed.

(** ** Runs of the suggestion endpoint *)

Lemma suggestions_run fromisoformat clk d m count t :
  timestamps_aware fromisoformat d = true ->
  exists scored t',
    suggest fromisoformat clk (load_contacts d) m count t = (inr scored, t') /\
    get_suggestions fromisoformat clk (Some d) m count t
    = (inr (map snd scored), t').
Proof.
  intros Haw.
  destruct (suggest_total fromisoformat clk (load_contacts d) m count t
              (load_contacts_aware fromisoformat d Haw)) as [scored [t' H]].
  exists scored, t'. split; [exact H|].
  apply get_suggestions_inr. exact H.
Qed.

Lemma load_contacts_length d :
  List.length (load_contacts d) = List.length (contact d).
Proof. unfold load_contacts. apply length_map. Qed.

(** ** The due evaluator *)



(** ** Malformed timestamps and missing frequencies *)

(** C8: a contact whose lastContactedAt is a string that
    [datetime.fromisoformat] rejects is handled as a never-contacted one:
    [is_due] returns true and [overdue_score] returns the top score 10^9,
    both without reading the clock and equal to what they return once the
    field is removed; the annotation computed for it is null.  Each call
    returns a value: the parser's exception is caught. *)
Theorem unparseable_is_never_contacted fromisoformat clk c s t :
  lastContactedAt (doc c) = Raw s ->
  fromisoformat s = None ->
  is_due fromisoformat clk c t = (inr true, t) /\
  overdue_score fromisoformat clk c t = (inr 1000000000, t) /\
  is_due fromisoformat clk c t
  = is_due fromisoformat clk (set_lastContactedAt c Absent) t /\
  overdue_score fromisoformat clk c t
  = overdue_score fromisoformat clk (set_lastContactedAt c Absent) t /\
  days_since clk (get_last fromisoformat c) t = (inr None, t).
Proof.
  intros Hraw Hparse.
  unfold is_due, overdue_score, days_since, get_last. simpl.
  rewrite Hraw, Hparse. repeat split.
Qed.

Lemma unparseable_is_never_contacted_witness :
  let c := demo_contact ALEX "Sam" (Some 14) (Raw "last tuesday") in
  is_due demo_fromisoformat demo_clock c 0%nat = (inr true, 0%nat) /\
  overdue_score demo_fromisoformat demo_clock c 0%nat
  = (inr 1000000000, 0%nat) /\
  is_due demo_fromisoformat demo_clock c 0%nat
  = is_due demo_fromisoformat demo_clock (set_lastContactedAt c Absent) 0%nat /\
  overdue_score demo_fromisoformat demo_clock c 0%nat
  = overdue_score demo_fromisoformat demo_clock
      (set_lastContactedAt c Absent) 0%nat /\
  days_since demo_clock (get_last demo_fromisoformat c) 0%nat
  = (inr None, 0%nat).
Proof.
  apply (unparseable_is_never_contacted demo_fromisoformat demo_clock
           (demo_contact ALEX "Sam" (Some 14) (Raw "last tuesday"))
           "last tuesday" 0%nat).
  - reflexivity.
  - reflexivity.
Defined.



(** ** The order of the suggestions *)

Section Order.

Variable fromisoformat : string -> option datetime.
Variable clk : Clock.

(** What the annotation keeps of a contact and its key. *)
Lemma annotated_scored t t' a b :
  fst b = fst a -> doc (snd b) = doc (snd a) ->
  scored_in fromisoformat clk t t' a -> scored_in fromisoformat clk t t' b.
Proof. unfold scored_in. intros -> ->. auto. Qed.

Lemma suggest_order items m count t scored t' :
  suggest fromisoformat clk items m count t = (inr scored, t') ->
  Forall (scored_in fromisoformat clk t (t + List.length items)) scored /\
  StronglySorted key_ge scored /\
  (forall s, subseq (map stored (filter (has_key s) scored))
                    (map stored_contact items)) /\
  (exists rest, Permutation (map stored scored ++ rest)
                            (map stored_contact items)).
Proof.
  intros H.
  destruct (suggest_facts _ _ _ _ _ _ _ _ H)
    as [sorted [t1 [due [t2 [Hs [Hd [Ht [Ht' [HF Hslice]]]]]]]]].
  destruct (sort_items_inr _ _ _ _ _ _ Hs)
    as [Ht1 [Hperm [Hperm' [Hsorted [Hscored [Hstable _]]]]]].
  assert (Hrel : forall a b : Z * Contact,
             fst b = fst a /\ id (snd b) = id (snd a) /\
             doc (snd b) = doc (snd a) /\
             annotated_in fromisoformat clk t2 t' (snd b) ->
             fst b = fst a /\ stored b = stored a).
  { intros a b [Hk [Hi [Hdo _]]]. split; [exact Hk|].
    unfold stored. rewrite Hi, Hdo. reflexivity. }
  destruct (annotated_stored _ _ _ Hrel HF) as [Hst Hst'].
  assert (Hkeys : map fst scored
                  = map fst (slice_to (list_or due sorted) (target m count))).
  { eapply annotated_keys; [|exact HF]. intros a b Hab. apply Hab. }
  split.
  { assert (Hsl : Forall (scored_in fromisoformat clk t (t + List.length items))
                         (slice_to (list_or due sorted) (target m count))).
    { eapply subseq_Forall; [exact Hslice|].
      eapply Forall_impl; [|exact Hscored].
      intros kc. apply scored_in_widen; lia. }
    clear - HF Hsl.
    induction HF as [|a b l l' [Hk [_ [Hdo _]]] _ IH]; [constructor|].
    inversion Hsl; subst. constructor; [|apply IH; assumption].
    eapply annotated_scored; eauto. }
  split.
  { apply key_ge_descending. rewrite Hkeys. apply key_ge_descending.
    eapply subseq_StronglySorted; [exact Hslice|exact Hsorted]. }
  split.
  { intros s. rewrite Hst'. eapply subseq_trans; [|apply Hstable].
    apply subseq_map, subseq_filter. exact Hslice. }
  rewrite Hst.
  destruct (subseq_rest _ _ (subseq_map stored _ _ Hslice)) as [rest Hrest].
  exists rest. rewrite Hrest. exact Hperm'.
Qed.

End Order.

(** C5, as stated, fails: two contacts with the same timestamp and the same
    frequency have the same overdue score at every instant, yet they are
    returned in the reverse of their storage order.  Their sort keys are
    computed at two successive readings of the clock, and a whole day ends
    between the two. *)
Lemma twins_returned_in_reverse_order :
  contact twin_db
  = [(ALEX, twin_doc "Alex Johnson"); (JAMIE, twin_doc "Jamie Lee")] /\
  (forall now,
      score_at demo_fromisoformat now (twin_doc "Alex Johnson")
      = score_at demo_fromisoformat now (twin_doc "Jamie Lee")) /\
  (forall k,
      fst (overdue_score demo_fromisoformat demo_clock
             {| id := ALEX; doc := twin_doc "Alex Johnson"; daysSince := None |}
             k)
      = fst (overdue_score demo_fromisoformat demo_clock
               {| id := JAMIE; doc := twin_doc "Jamie Lee"; daysSince := None |}
               k)) /\
  exists out,
    fst (get_suggestions demo_fromisoformat demo_clock (Some twin_db)
           "daily" 3 0%nat) = inr out /\
    map id out = [JAMIE; ALEX] /\
    map fst
      (match fst (suggest demo_fromisoformat demo_clock
                    (load_contacts twin_db) "daily" 3 0%nat) with
       | inr scored => scored
       | inl _ => []
       end) = [0; -1].
Proof.
  split; [reflexivity|]. split; [intros now; reflexivity|].
  split; [intros k; reflexivity|].
  eexists. split; [vm_compute; reflexivity|].
  split; vm_compute; reflexivity.
Qed.

(** C5, amended: the contacts [get_suggestions] returns are in descending
    order of their sort keys (no contact of a lower key precedes one of a
    higher key), a contact's key being its overdue score at one of the
    successive clock readings at which the keys were computed, and the
    returned contacts of one key are in the order the contact collection
    holds them.  When the scores are the same at all those readings, the
    keys are the scores themselves. *)
Theorem suggestions_sorted_stable fromisoformat clk d m count t :
  timestamps_aware fromisoformat d = true ->
  exists scored t',
    suggest fromisoformat clk (load_contacts d) m count t = (inr scored, t') /\
    get_suggestions fromisoformat clk (Some d) m count t
    = (inr (map snd scored), t') /\
    Forall (scored_in fromisoformat clk t (t + List.length (contact d))) scored /\
    descending (map fst scored) /\
    (forall l1 x l2 y l3, scored = l1 ++ x :: l2 ++ y :: l3 -> fst y <= fst x) /\
    (forall s, subseq (map stored (filter (has_key s) scored)) (contact d)) /\
    (forall now,
        (forall kd k, In kd (contact d) ->
                      (t <= k < t + List.length (contact d))%nat ->
                      score_at fromisoformat (clk k) (snd kd)
                      = score_at fromisoformat now (snd kd)) ->
        Forall (fun kc => fst kc = score_at fromisoformat now (doc (snd kc)))
               scored).
Proof.
  intros Haw.
  destruct (suggestions_run fromisoformat clk d m count t Haw)
    as [scored [t' [Hrun Hget]]].
  exists scored, t'. split; [exact Hrun|]. split; [exact Hget|].
  destruct (suggest_order _ _ _ _ _ _ _ _ Hrun)
    as [Hscored [Hsorted [Hstable [rest Hrest]]]].
  rewrite load_contacts_length in Hscored.
  rewrite load_contacts_stored in Hstable, Hrest.
  split; [exact Hscored|].
  split; [apply key_ge_descending; exact Hsorted|].
  split.
  { intros l1 x l2 y l3 Heq. rewrite Heq in Hsorted.
    apply StronglySorted_split in Hsorted.
    rewrite Forall_forall in Hsorted. apply (Hsorted y).
    apply in_or_app. right. left. reflexivity. }
  split; [exact Hstable|].
  intros now Hsame. rewrite Forall_forall in *. intros kc Hkc.
  specialize (Hscored kc Hkc). unfold scored_in in Hscored.
  assert (Hin : In (stored kc) (contact d)).
  { eapply Permutation_in; [exact Hrest|].
    apply in_or_app. left. apply in_map. exact Hkc. }
  destruct (last_contact fromisoformat (doc (snd kc))) eqn:E.
  - destruct Hscored as [k [Hk ->]]. apply (Hsame (stored kc) k Hin Hk).
  - rewrite Hscored. unfold score_at. rewrite E. reflexivity.
Qed.

Lemma suggestions_sorted_stable_witness :
  exists scored t',
    suggest demo_fromisoformat demo_clock (load_contacts demo_db)
      "daily" 3 0%nat = (inr scored, t') /\
    get_suggestions demo_fromisoformat demo_clock (Some demo_db)
      "daily" 3 0%nat = (inr (map snd scored), t') /\
    Forall (scored_in demo_fromisoformat demo_clock 0
              (0 + List.length (contact demo_db))) scored /\
    descending (map fst scored) /\
    (forall l1 x l2 y l3, scored = l1 ++ x :: l2 ++ y :: l3 -> fst y <= fst x) /\
    (forall s, subseq (map stored (filter (has_key s) scored))
                      (contact demo_db)) /\
    (forall now,
        (forall kd k, In kd (contact demo_db) ->
                      (0 <= k < 0 + List.length (contact demo_db))%nat ->
                      score_at demo_fromisoformat (demo_clock k) (snd kd)
                      = score_at demo_fromisoformat now (snd kd)) ->
        Forall (fun kc => fst kc
                          = score_at demo_fromisoformat now (doc (snd kc)))
               scored).
Proof.
  apply (suggestions_sorted_stable demo_fromisoformat demo_clock demo_db
           "daily" 3 0%nat).
  reflexivity.
Defined.

(** ** What a run of the endpoint returns *)

Section Runs.

Variable fromisoformat : string -> option datetime.
Variable clk : Clock.

Lemma suggest_result items m count t scored t' :
  suggest fromisoformat clk items m count t = (inr scored, t') ->
  exists sorted t1 due t2,
    sort_items fromisoformat clk items t = (inr sorted, t1) /\
    due_items fromisoformat clk sorted t1 = (inr due, t2) /\
    (t <= t1 <= t2)%nat /\ (t2 <= t' <= t + 3 * List.length items)%nat /\
    map stored scored
    = map stored (slice_to (list_or due sorted) (target m count)) /\
    List.length scored
    = List.length (slice_to (list_or due sorted) (target m count)) /\
    Forall (fun kc => annotated_in fromisoformat clk t t' (snd kc)) scored.
Proof.
  intros H.
  destruct (suggest_facts _ _ _ _ _ _ _ _ H)
    as [sorted [t1 [due [t2 [Hs [Hd [Ht [Ht' [HF Hslice]]]]]]]]].
  exists sorted, t1, due, t2.
  split; [exact Hs|]. split; [exact Hd|]. split; [exact Ht|].
  split; [exact Ht'|].
  assert (Hrel : forall a b : Z * Contact,
             fst b = fst a /\ id (snd b) = id (snd a) /\
             doc (snd b) = doc (snd a) /\
             annotated_in fromisoformat clk t2 t' (snd b) ->
             fst b = fst a /\ stored b = stored a).
  { intros a b [Hk [Hi [Hdo _]]]. split; [exact Hk|].
    unfold stored. rewrite Hi, Hdo. reflexivity. }
  split; [apply (annotated_stored _ _ _ Hrel HF)|].
  split; [apply (Forall2_length_eq _ _ _ HF)|].
  eapply Forall_impl; [|apply (Forall2_Forall_r _ _ _ HF)].
  intros kc' [kc [_ [_ [_ [_ Ha]]]]].
  eapply annotated_in_widen; [| |exact Ha]; lia.
Qed.

Lemma timestamps_naive d :
  timestamps_aware fromisoformat d = false ->
  exists c, In c (load_contacts d) /\
            aware_timestamp fromisoformat (doc c) = false.
Proof.
  unfold timestamps_aware, load_contacts.
  induction (contact d) as [|kd l IH]; simpl; [discriminate|].
  destruct (aware_timestamp fromisoformat (snd kd)) eqn:E; simpl.
  - intros H. destruct (IH H) as [c [Hc Hn]]. exists c. split; [right|]; assumption.
  - intros _. eexists. split; [left; reflexivity|exact E].
Qed.

(** One naive timestamp among the contacts makes the whole run raise. *)
Lemma suggest_raises items m count t :
  (exists c, In c items /\ aware_timestamp fromisoformat (doc c) = false) ->
  exists t', suggest fromisoformat clk items m count t = (inl TypeError, t').
Proof.
  intros [c [Hc Hn]].
  assert (H : exists t', score_items fromisoformat clk items t
                         = (inl TypeError, t')).
  { apply mapM_raises.
    - intros x k e' k'. unfold bind_ok.
      destruct (overdue_score fromisoformat clk x k) as [[e|s] k0] eqn:E;
        cbn; intros H; [|discriminate].
      injection H as <- <-.
      eapply overdue_score_only_TypeError. exact E.
    - exists c. split; [exact Hc|]. intros k. unfold bind_ok.
      destruct (naive_raises fromisoformat clk c k Hn) as [_ [-> _]].
      eexists. reflexivity. }
  destruct H as [t' H]. exists t'.
  unfold suggest, sort_items, bind_ok. rewrite H. reflexivity.
Qed.

Lemma get_suggestions_raises d m count t :
  timestamps_aware fromisoformat d = false ->
  exists t',
    get_suggestions fromisoformat clk (Some d) m count t = (inl TypeError, t').
Proof.
  intros Hn.
  destruct (suggest_raises (load_contacts d) m count t (timestamps_naive d Hn))
    as [t' H].
  exists t'. rewrite get_suggestions_some, H. reflexivity.
Qed.

Lemma result_pool_run_total items t :
  Forall (fun c => aware_timestamp fromisoformat (doc c) = true) items ->
  exists sorted pool t2,
    result_pool_run fromisoformat clk items t = (inr (sorted, pool), t2).
Proof.
  intros Haw.
  destruct (sort_items_total fromisoformat clk items t Haw) as [sorted [t1 Hs]].
  destruct (due_items_total fromisoformat clk sorted t1
              (sorted_aware _ _ _ _ _ _ Hs)) as [due [t2 Hd]].
  exists sorted, (list_or due sorted), t2.
  apply result_pool_run_inr. exists t1, due.
  split; [exact Hs|]. split; [exact Hd|reflexivity].
Qed.

(** The length of the answer, from the pool of the same run. *)
Lemma suggest_length items m count t scored t' sorted pool t2 :
  suggest fromisoformat clk items m count t = (inr scored, t') ->
  result_pool_run fromisoformat clk items t = (inr (sorted, pool), t2) ->
  List.length scored = List.length (slice_to pool (target m count)) /\
  map stored scored = map stored (slice_to pool (target m count)).
Proof.
  intros H Hp.
  destruct (suggest_result _ _ _ _ _ _ H)
    as [sorted' [t1 [due [t2' [Hs [Hd [_ [_ [Hst [Hlen _]]]]]]]]]].
  apply result_pool_run_inr in Hp. destruct Hp as [t1' [due' [Hs' [Hd' ->]]]].
  rewrite Hs in Hs'. injection Hs' as <- <-.
  rewrite Hd in Hd'. injection Hd' as <- <-.
  split; assumption.
Qed.

End Runs.

(** ** Mode and count *)

(** C1, as stated, fails: the stored settings select the weekly mode and a
    weekly count of 10, the request gives neither mode nor count, and the
    endpoint cuts the four due contacts to 3, not to min(10, 4) = 4. *)
Lemma suggestions_ignore_stored_settings :
  get_settings (Some weekly_db) = (inr weekly_settings, Some weekly_db) /\
  mode weekly_settings = "weekly" /\
  countWeekly weekly_settings = 10 /\
  exists sorted pool t2 out,
    result_pool_run demo_fromisoformat demo_clock (load_contacts weekly_db)
      0%nat = (inr (sorted, pool), t2) /\
    List.length pool = 4%nat /\
    fst (get_suggestions_request demo_fromisoformat demo_clock
           (Some weekly_db) None None 0%nat) = inr out /\
    List.length out = 3%nat /\
    Z.of_nat (List.length out)
    <> Z.min (countWeekly weekly_settings) (Z.of_nat (List.length pool)).
Proof.
  split; [reflexivity|]. split; [reflexivity|]. split; [reflexivity|].
  do 4 eexists. split; [vm_compute; reflexivity|].
  split; [reflexivity|]. split; [vm_compute; reflexivity|].
  split; [reflexivity|]. vm_compute. discriminate.
Qed.

(** C1, amended: a request without count is served as one with count = 3
    and a request without mode as one with mode = "daily"; the count given
    or defaulted is the number the result is cut to, whatever the mode; and
    the stored settings do not change the answer.  (The request is answered
    when every timestamp is timezone-aware, and raises otherwise.) *)
Theorem suggestions_defaults fromisoformat clk db d s m count N t :
  get_suggestions_request fromisoformat clk db m None t
  = get_suggestions_request fromisoformat clk db m (Some 3) t /\
  get_suggestions_request fromisoformat clk db None count t
  = get_suggestions_request fromisoformat clk db (Some "daily") count t /\
  (timestamps_aware fromisoformat d = true ->
   exists out sorted pool t2,
     fst (get_suggestions_request fromisoformat clk (Some d) m None t)
     = inr out /\
     result_pool_run fromisoformat clk (load_contacts d) t
     = (inr (sorted, pool), t2) /\
     Z.of_nat (List.length out) = Z.min 3 (Z.of_nat (List.length pool))) /\
  (timestamps_aware fromisoformat d = false ->
   fst (get_suggestions_request fromisoformat clk (Some d) m None t)
   = inl TypeError) /\
  target (match m with Some x => x | None => "daily" end) N = N /\
  get_suggestions_request fromisoformat clk (Some (with_settings d s)) m count t
  = get_suggestions_request fromisoformat clk (Some d) m count t.
Proof.
  split; [reflexivity|]. split; [reflexivity|].
  split; [|split; [|split; [apply target_eq|reflexivity]]].
  - intros Haw. unfold get_suggestions_request.
    destruct (suggestions_run fromisoformat clk d
                (match m with Some x => x | None => "daily" end) 3 t Haw)
      as [scored [t' [Hrun Hget]]].
    destruct (result_pool_run_total fromisoformat clk (load_contacts d) t
                (load_contacts_aware fromisoformat d Haw))
      as [sorted [pool [t2 Hpool]]].
    exists (map snd scored), sorted, pool, t2.
    split; [rewrite Hget; reflexivity|]. split; [exact Hpool|].
    destruct (suggest_length _ _ _ _ _ _ _ _ _ _ _ Hrun Hpool) as [Hlen _].
    rewrite length_map, Hlen, target_eq. apply slice_to_length. lia.
  - intros Hn. unfold get_suggestions_request.
    destruct (get_suggestions_raises fromisoformat clk d
                (match m with Some x => x | None => "daily" end) 3 t Hn)
      as [t' ->].
    reflexivity.
Qed.

Lemma suggestions_defaults_witness :
  exists out sorted pool t2,
    fst (get_suggestions_request demo_fromisoformat demo_clock
           (Some weekly_db) None None 0%nat) = inr out /\
    result_pool_run demo_fromisoformat demo_clock (load_contacts weekly_db)
      0%nat = (inr (sorted, pool), t2) /\
    Z.of_nat (List.length out) = Z.min 3 (Z.of_nat (List.length pool)).
Proof.
  apply (proj1 (proj2 (proj2
           (suggestions_defaults demo_fromisoformat demo_clock
              (Some weekly_db) weekly_db None None None 3 0%nat)))).
  reflexivity.
Defined.

(** ** The fallback *)

(** C6, as stated, fails: with one contact that is not due and count = 0 the
    result is empty. *)
Lemma fallback_empty_at_count_zero :
  exists sorted t1,
    sort_items demo_fromisoformat demo_clock (load_contacts recent_db) 0%nat
    = (inr sorted, t1) /\
    contact recent_db <> [] /\
    fst (due_items demo_fromisoformat demo_clock sorted t1) = inr [] /\
    fst (get_suggestions demo_fromisoformat demo_clock (Some recent_db)
           "daily" 0 0%nat) = inr [] /\
    ~ (exists out,
         fst (get_suggestions demo_fromisoformat demo_clock (Some recent_db)
                "daily" 0 0%nat) = inr out /\ out <> []).
Proof.
  do 2 eexists. split; [vm_compute; reflexivity|].
  split; [discriminate|]. split; [vm_compute; reflexivity|].
  split; [vm_compute; reflexivity|].
  intros [out [Hout Hne]]. vm_compute in Hout.
  injection Hout as <-. apply Hne. reflexivity.
Qed.

(** C6, amended: when no contact is due, at least one contact exists and the
    count is at least 1, [get_suggestions] returns a non-empty list: the
    first [count] contacts of the whole collection sorted by score. *)
Theorem fallback_non_empty fromisoformat clk d mode count t sorted t1 :
  sort_items fromisoformat clk (load_contacts d) t = (inr sorted, t1) ->
  contact d <> [] ->
  fst (due_items fromisoformat clk sorted t1) = inr [] ->
  1 <= count ->
  Permutation (map stored sorted) (contact d) /\
  descending (map fst sorted) /\
  exists out,
    fst (get_suggestions fromisoformat clk (Some d) mode count t) = inr out /\
    out <> [] /\
    map stored_contact out = map stored (firstn (Z.to_nat count) sorted).
Proof.
  intros Hs Hne Hdue Hcount.
  destruct (sort_items_inr _ _ _ _ _ _ Hs)
    as [_ [_ [Hperm [Hsorted [_ [_ Haw]]]]]].
  rewrite load_contacts_stored in Hperm.
  split; [exact Hperm|].
  split; [apply key_ge_descending; exact Hsorted|].
  destruct (suggest_total fromisoformat clk (load_contacts d) mode count t Haw)
    as [scored [t' Hrun]].
  exists (map snd scored).
  split; [rewrite (get_suggestions_inr _ _ _ _ _ _ _ _ Hrun); reflexivity|].
  destruct (due_items fromisoformat clk sorted t1) as [r t2] eqn:Hd.
  simpl in Hdue. subst r.
  assert (Hpool : result_pool_run fromisoformat clk (load_contacts d) t
                  = (inr (sorted, sorted), t2)).
  { apply result_pool_run_inr. exists t1, [].
    split; [exact Hs|]. split; [exact Hd|reflexivity]. }
  destruct (suggest_length _ _ _ _ _ _ _ _ _ _ _ Hrun Hpool) as [Hlen Hst].
  rewrite target_eq in Hlen, Hst.
  split.
  - intros Hnil. apply (f_equal (@List.length _)) in Hnil.
    rewrite length_map, Hlen in Hnil. simpl in Hnil.
    pose proof (slice_to_length sorted count ltac:(lia)) as Hl.
    apply Permutation_length in Hperm. rewrite length_map in Hperm.
    destruct (contact d); [congruence|]. simpl in *. lia.
  - rewrite map_stored_snd, Hst, slice_to_firstn by lia. reflexivity.
Qed.

Lemma fallback_non_empty_witness :
  exists sorted t1,
    sort_items demo_fromisoformat demo_clock (load_contacts recent_db) 0%nat
    = (inr sorted, t1) /\
    Permutation (map stored sorted) (contact recent_db) /\
    descending (map fst sorted) /\
    exists out,
      fst (get_suggestions demo_fromisoformat demo_clock (Some recent_db)
             "daily" 3 0%nat) = inr out /\
      out <> [] /\
      map stored_contact out = map stored (firstn (Z.to_nat 3) sorted).
Proof.
  exists [(-14, {| id := ALEX;
                   doc := demo_doc "Alex Johnson" (Some 14) (At (utc DEMO_NOW));
                   daysSince := None |})], 1%nat.
  split; [vm_compute; reflexivity|].
  apply (fallback_non_empty demo_fromisoformat demo_clock recent_db
           "daily" 3 0%nat
           [(-14, {| id := ALEX;
                     doc := demo_doc "Alex Johnson" (Some 14)
                              (At (utc DEMO_NOW));
                     daysSince := None |})] 1%nat).
  - vm_compute. reflexivity.
  - discriminate.
  - vm_compute. reflexivity.
  - lia.
Defined.

(** ** Never-contacted contacts *)

(** C3: the top score is the finite 10^9, and a contact reached at the
    reading of the clock whose frequencyDays is -2000000000 scores
    2000000000: it is returned before the never-contacted contact, against
    the comment of [overdue_score], "never contacted -> top priority". *)
Theorem never_contacted_outranked :
  let a := {| id := TAYLOR; doc := taylor_doc; daysSince := None |} in
  let b := demo_contact JAMIE "Blake Roe" (Some (-2000000000))
             (At (utc DEMO_NOW)) in
  contact extreme_db = [(id a, doc a); (id b, doc b)] /\
  lastContactedAt (doc a) = Absent /\
  lastContactedAt (doc b) = At (utc DEMO_NOW) /\
  overdue_score demo_fromisoformat demo_clock a 0%nat
  = (inr 1000000000, 0%nat) /\
  overdue_score demo_fromisoformat demo_clock b 0%nat
  = (inr 2000000000, 1%nat) /\
  fst (get_suggestions demo_fromisoformat demo_clock (Some extreme_db)
         "daily" 3 0%nat)
  = inr [set_daysSince b (Some 0); set_daysSince a None].
Proof.
  repeat split; vm_compute; reflexivity.
Qed.

(** ** The size of the answer *)



(** ** The annotation *)

(** C9: every contact [get_suggestions] returns carries daysSince: null when
    the stored lastContactedAt is missing or is a string that does not
    parse, and otherwise the whole days (the floor) between lastContactedAt,
    the stored datetime or the parsed string, and a reading of the clock
    taken during the call. *)
Theorem suggestions_daysSince fromisoformat clk d m count t :
  timestamps_aware fromisoformat d = true ->
  exists out t',
    get_suggestions fromisoformat clk (Some d) m count t = (inr out, t') /\
    Forall (fun c =>
              match lastContactedAt (doc c) with
              | Absent => daysSince c = Some None
              | At last =>
                  exists k, (t <= k < t')%nat /\
                    daysSince c
                    = Some (Some ((clk k - micros last) / 86400000000))
              | Raw s =>
                  match fromisoformat s with
                  | None => daysSince c = Some None
                  | Some last =>
                      exists k, (t <= k < t')%nat /\
                        daysSince c
                        = Some (Some ((clk k - micros last) / 86400000000))
                  end
              end) out /\
    Forall (fun c => In (stored_contact c) (contact d)) out.
Proof.
  intros Haw.
  destruct (suggestions_run fromisoformat clk d m count t Haw)
    as [scored [t' [Hrun Hget]]].
  exists (map snd scored), t'. split; [exact Hget|].
  destruct (suggest_result _ _ _ _ _ _ _ _ Hrun)
    as [sorted [t1 [due [t2 [Hs [Hd [_ [_ [_ [_ Hann]]]]]]]]]].
  split.
  - rewrite Forall_map. eapply Forall_impl; [|exact Hann].
    intros kc. unfold annotated_in, last_contact, whole_days.
    destruct (lastContactedAt (doc (snd kc))) as [|last|s]; auto.
  - destruct (suggest_order _ _ _ _ _ _ _ _ Hrun) as [_ [_ [_ [rest Hrest]]]].
    rewrite load_contacts_stored in Hrest.
    rewrite Forall_map, Forall_forall. intros kc Hkc.
    eapply Permutation_in; [exact Hrest|].
    apply in_or_app. left.
    change (stored_contact (snd kc)) with (stored kc).
    apply in_map. exact Hkc.
Qed.

Lemma suggestions_daysSince_witness :
  exists out t',
    get_suggestions demo_fromisoformat demo_clock (Some demo_db) "daily" 3
      0%nat = (inr out, t') /\
    Forall (fun c =>
              match lastContactedAt (doc c) with
              | Absent => daysSince c = Some None
              | At last =>
                  exists k, (0 <= k < t')%nat /\
                    daysSince c
                    = Some (Some ((demo_clock k - micros last) / 86400000000))
              | Raw s =>
                  match demo_fromisoformat s with
                  | None => daysSince c = Some None
                  | Some last =>
                      exists k, (0 <= k < t')%nat /\
                        daysSince c
                        = Some (Some ((demo_clock k - micros last)
                                      / 86400000000))
                  end
              end) out /\
    Forall (fun c => In (stored_contact c) (contact demo_db)) out.
Proof.
  apply (suggestions_daysSince demo_fromisoformat demo_clock demo_db
           "daily" 3 0%nat).
  reflexivity.
Defined.

(** ** More on the due evaluator and the score *)

Lemma due_at_score_at fromisoformat now c :
  due_at fromisoformat now c = (0 <=? score_at fromisoformat now c).
Proof.
  unfold due_at, score_at.
  destruct (last_contact fromisoformat c) as [last|]; [|reflexivity].
  destruct (frequency c <=? whole_days (now - micros last)) eqn:H;
    symmetry; [apply Z.leb_le; apply Z.leb_le in H|
               apply Z.leb_gt; apply Z.leb_gt in H]; lia.
Qed.

(** X1: at one reading of the clock, [is_due] is true exactly when
    [overdue_score] is not negative, and raises when [overdue_score] raises;
    both read the clock the same number of times. *)
Theorem is_due_iff_score_nonnegative fromisoformat clk c k :
  is_due fromisoformat clk c k
  = (match fst (overdue_score fromisoformat clk c k) with
     | inl e => inl e
     | inr s => inr (0 <=? s)
     end,
     snd (overdue_score fromisoformat clk c k)).
Proof.
  destruct (aware_timestamp fromisoformat (doc c)) eqn:E.
  - rewrite (is_due_aware _ _ c k E), (overdue_score_aware _ _ c k E). simpl.
    rewrite due_at_score_at. reflexivity.
  - destruct (naive_raises fromisoformat clk c k E) as [-> [-> _]]. reflexivity.
Qed.

(** X2: when the clock has not gone back between two readings, the score
    at the later one is at least the score at the earlier one, and a
    contact due at the earlier one is due at the later one; a contact for
    which the functions raise at one reading makes them raise at the
    other. *)
Theorem due_and_score_grow_with_time fromisoformat clk c k k' :
  clk k <= clk k' ->
  match fst (overdue_score fromisoformat clk c k),
        fst (overdue_score fromisoformat clk c k') with
  | inr s, inr s' => s <= s'
  | inl e, inl e' => e = e'
  | _, _ => False
  end /\
  (fst (is_due fromisoformat clk c k) = inr true ->
   fst (is_due fromisoformat clk c k') = inr true).
Proof.
  intros Hclk.
  destruct (aware_timestamp fromisoformat (doc c)) eqn:E.
  - rewrite !(overdue_score_aware _ _ c _ E), !(is_due_aware _ _ c _ E). simpl.
    assert (Hs : score_at fromisoformat (clk k) (doc c)
                 <= score_at fromisoformat (clk k') (doc c)).
    { unfold score_at.
      destruct (last_contact fromisoformat (doc c)) as [last|]; [|lia].
      pose proof (whole_days_mono (clk k - micros last) (clk k' - micros last)).
      lia. }
    split; [exact Hs|].
    rewrite !due_at_score_at. intros H. injection H as H.
    apply Z.leb_le in H. f_equal. apply Z.leb_le. lia.
  - destruct (naive_raises fromisoformat clk c k E) as [-> [-> _]].
    destruct (naive_raises fromisoformat clk c k' E) as [-> [-> _]].
    simpl. split; [reflexivity|discriminate].
Qed.

Lemma due_and_score_grow_with_time_witness :
  let c := demo_contact ALEX "Alex Johnson" (Some 14)
             (At (utc (DEMO_NOW - timedelta_of_days 14))) in
  match fst (overdue_score demo_fromisoformat demo_clock c 0%nat),
        fst (overdue_score demo_fromisoformat demo_clock c 5%nat) with
  | inr s, inr s' => s <= s'
  | inl e, inl e' => e = e'
  | _, _ => False
  end /\
  (fst (is_due demo_fromisoformat demo_clock c 0%nat) = inr true ->
   fst (is_due demo_fromisoformat demo_clock c 5%nat) = inr true).
Proof.
  apply (due_and_score_grow_with_time demo_fromisoformat demo_clock
           (demo_contact ALEX "Alex Johnson" (Some 14)
              (At (utc (DEMO_NOW - timedelta_of_days 14)))) 0%nat 5%nat).
  vm_compute. discriminate.
Defined.

(** X3: for a timezone-aware lastContactedAt, [days_since] returns the whole
    number n of days with n days <= elapsed < n + 1 days; it is negative
    exactly when lastContactedAt is later than the clock reading.  For a
    naive one it raises TypeError, and without one it returns null and
    leaves the clock alone. *)
Theorem days_since_floor clk u t :
  (exists n,
      days_since clk (Some (utc u)) t = (inr (Some n), S t) /\
      timedelta_of_days n <= clk t - u < timedelta_of_days (n + 1) /\
      (n < 0 <-> clk t < u)) /\
  days_since clk (Some (naive u)) t = (inl TypeError, S t) /\
  days_since clk None t = (inr None, t).
Proof.
  split; [|split; reflexivity].
  exists (whole_days (clk t - u)). split; [reflexivity|].
  pose proof (whole_days_bounds (clk t - u)) as Hb.
  unfold timedelta_of_days, MICROS_PER_DAY.
  split; [exact Hb|].
  split; intros H; [lia|].
  destruct (Z_lt_le_dec (whole_days (clk t - u)) 0) as [Hn|Hn]; [exact Hn|].
  lia.
Qed.

(** ** More on the suggestion endpoint *)

(** X4: with a negative count N, [get_suggestions] cuts |N| contacts off the
    end of the pool instead of failing: it returns max(0, size of the
    pool + N) contacts. *)
Theorem suggestions_negative_count fromisoformat clk d m N t :
  timestamps_aware fromisoformat d = true ->
  N < 0 ->
  exists out sorted pool t2,
    fst (get_suggestions fromisoformat clk (Some d) m N t) = inr out /\
    result_pool_run fromisoformat clk (load_contacts d) t
    = (inr (sorted, pool), t2) /\
    Z.of_nat (List.length out) = Z.max 0 (Z.of_nat (List.length pool) + N).
Proof.
  intros Haw HN.
  destruct (suggestions_run fromisoformat clk d m N t Haw)
    as [scored [t' [Hrun Hget]]].
  destruct (result_pool_run_total fromisoformat clk (load_contacts d) t
              (load_contacts_aware fromisoformat d Haw))
    as [sorted [pool [t2 Hpool]]].
  exists (map snd scored), sorted, pool, t2.
  split; [rewrite Hget; reflexivity|]. split; [exact Hpool|].
  destruct (suggest_length _ _ _ _ _ _ _ _ _ _ _ Hrun Hpool) as [Hlen _].
  rewrite length_map, Hlen, target_eq.
  apply slice_to_length_negative. exact HN.
Qed.

Lemma suggestions_negative_count_witness :
  exists out sorted pool t2,
    fst (get_suggestions demo_fromisoformat demo_clock (Some demo_db)
           "daily" (-1) 0%nat) = inr out /\
    result_pool_run demo_fromisoformat demo_clock (load_contacts demo_db)
      0%nat = (inr (sorted, pool), t2) /\
    Z.of_nat (List.length out) = Z.max 0 (Z.of_nat (List.length pool) + -1).
Proof.
  apply (suggestions_negative_count demo_fromisoformat demo_clock demo_db
           "daily" (-1) 0%nat).
  - reflexivity.
  - lia.
Defined.

(** X5: [get_suggestions] returns stored contacts only, none more often
    than the collection holds it: the returned contacts, together with some
    others, are a rearrangement of the collection.  When the stored
    identifiers are distinct, so are the returned ones. *)
Theorem suggestions_from_storage fromisoformat clk d m count t :
  timestamps_aware fromisoformat d = true ->
  exists out,
    fst (get_suggestions fromisoformat clk (Some d) m count t) = inr out /\
    (exists rest, Permutation (map stored_contact out ++ rest) (contact d)) /\
    (NoDup (map fst (contact d)) -> NoDup (map id out)).
Proof.
  intros Haw.
  destruct (suggestions_run fromisoformat clk d m count t Haw)
    as [scored [t' [Hrun Hget]]].
  exists (map snd scored). split; [rewrite Hget; reflexivity|].
  destruct (suggest_order _ _ _ _ _ _ _ _ Hrun) as [_ [_ [_ [rest Hrest]]]].
  rewrite load_contacts_stored in Hrest. rewrite map_stored_snd.
  split; [exists rest; exact Hrest|].
  intros Hnodup.
  apply (Permutation_map fst) in Hrest. rewrite map_app in Hrest.
  apply (Permutation_NoDup (Permutation_sym Hrest)) in Hnodup.
  apply NoDup_app_remove_r in Hnodup.
  rewrite !map_map in *. exact Hnodup.
Qed.

Lemma suggestions_from_storage_witness :
  exists out,
    fst (get_suggestions demo_fromisoformat demo_clock (Some demo_db)
           "daily" 2 0%nat) = inr out /\
    (exists rest,
        Permutation (map stored_contact out ++ rest) (contact demo_db)) /\
    (NoDup (map fst (contact demo_db)) -> NoDup (map id out)).
Proof.
  apply (suggestions_from_storage demo_fromisoformat demo_clock demo_db
           "daily" 2 0%nat).
  reflexivity.
Defined.

(** X6: when the due filter keeps at least one contact, every contact
    [get_suggestions] returns is one it kept: the contact is due at a reading
    of the clock taken during the call.  When it keeps none, every stored
    contact was found not due at a reading taken during the call. *)
Theorem suggestions_due_only fromisoformat clk d m count t :
  timestamps_aware fromisoformat d = true ->
  exists out t' sorted t1 due t2,
    get_suggestions fromisoformat clk (Some d) m count t = (inr out, t') /\
    sort_items fromisoformat clk (load_contacts d) t = (inr sorted, t1) /\
    due_items fromisoformat clk sorted t1 = (inr due, t2) /\
    (due <> [] ->
     Forall (fun c => due_in fromisoformat clk t t' (doc c)) out /\
     subseq (map stored_contact out) (map stored due)) /\
    (due = [] ->
     Forall (fun kd => not_due_in fromisoformat clk t t' (snd kd)) (contact d)).
Proof.
  intros Haw.
  destruct (suggestions_run fromisoformat clk d m count t Haw)
    as [scored [t' [Hrun Hget]]].
  destruct (suggest_result _ _ _ _ _ _ _ _ Hrun)
    as [sorted [t1 [due [t2 [Hs [Hd [Ht [Ht' [Hst _]]]]]]]]].
  destruct (due_items_inr _ _ _ _ _ _ Hd) as [_ [Hsub [Hdue [Hnot _]]]].
  destruct (sort_items_inr _ _ _ _ _ _ Hs) as [_ [_ [Hperm _]]].
  rewrite load_contacts_stored in Hperm.
  exists (map snd scored), t', sorted, t1, due, t2.
  split; [exact Hget|]. split; [exact Hs|]. split; [exact Hd|].
  split.
  - intros Hne.
    assert (Hpool : list_or due sorted = due)
      by (destruct due; [congruence|reflexivity]).
    rewrite Hpool in Hst. rewrite map_stored_snd, Hst.
    split; [|apply subseq_map, subseq_slice_to].
    assert (Hdocs : Forall (fun kd : string * ContactDoc =>
                              due_in fromisoformat clk t t' (snd kd))
                           (map stored scored)).
    { rewrite Hst, Forall_map.
      eapply subseq_Forall; [apply subseq_slice_to|].
      eapply Forall_impl; [|exact Hdue].
      intros kc. apply due_in_widen; lia. }
    rewrite Forall_map in Hdocs. rewrite Forall_map. exact Hdocs.
  - intros ->.
    eapply Permutation_Forall; [exact Hperm|].
    rewrite Forall_map, Forall_forall. intros kc Hkc.
    eapply not_due_in_widen; [| |apply (Hnot kc Hkc)]; [lia|lia|].
    intros [].
Qed.

Lemma suggestions_due_only_witness :
  exists out t' sorted t1 due t2,
    get_suggestions demo_fromisoformat demo_clock (Some demo_db) "daily" 2
      0%nat = (inr out, t') /\
    sort_items demo_fromisoformat demo_clock (load_contacts demo_db) 0%nat
    = (inr sorted, t1) /\
    due_items demo_fromisoformat demo_clock sorted t1 = (inr due, t2) /\
    (due <> [] ->
     Forall (fun c => due_in demo_fromisoformat demo_clock 0 t' (doc c)) out /\
     subseq (map stored_contact out) (map stored due)) /\
    (due = [] ->
     Forall (fun kd => not_due_in demo_fromisoformat demo_clock 0 t' (snd kd))
            (contact demo_db)).
Proof.
  apply (suggestions_due_only demo_fromisoformat demo_clock demo_db
           "daily" 2 0%nat).
  reflexivity.
Defined.

(** A condition that gives the same answer at every clock index the loop
    can reach filters as [filter] does. *)
Lemma filterM_pure_bounded {A} (p : A -> Clocked (Exception + bool))
    (q : A -> bool) l :
  (forall x t, (t <= snd (p x t) <= S t)%nat) ->
  forall t,
    (forall x k, In x l -> (t <= k < t + List.length l)%nat ->
                 fst (p x k) = inr (q x)) ->
    fst (filterM p l t) = inr (filter q l).
Proof.
  intros Hstep. induction l as [|x l IH]; intros t Hp; [reflexivity|].
  cbn [filterM]. unfold bind_ok.
  pose proof (Hp x t (or_introl eq_refl) ltac:(simpl; lia)) as H1.
  pose proof (Hstep x t) as H2.
  destruct (p x t) as [r t1]. simpl in H1, H2. subst r.
  assert (IH' : fst (filterM p l t1) = inr (filter q l)).
  { apply IH. intros a k Ha Hk. apply Hp; [right; exact Ha|simpl; lia]. }
  destruct (filterM p l t1) as [[e|ys] t2]; simpl in *; [discriminate|].
  injection IH' as ->. destruct (q x); reflexivity.
Qed.

(** X7: when no stored contact's number of whole days since lastContactedAt
    changes over the clock readings one call can take (at most three for
    each contact), the contacts [get_suggestions] returns for a count N >= 0
    are the first ones of the whole collection sorted by score: no contact
    is returned while one that sorts before it is left out. *)
Theorem suggestions_top_of_ranking fromisoformat clk now d m N t :
  (forall kd last k,
      In kd (contact d) ->
      last_contact fromisoformat (snd kd) = Some last ->
      (t <= k < t + 3 * List.length (contact d))%nat ->
      (clk k - micros last) / 86400000000
      = (now - micros last) / 86400000000) ->
  timestamps_aware fromisoformat d = true ->
  0 <= N ->
  exists out sorted t1,
    fst (get_suggestions fromisoformat clk (Some d) m N t) = inr out /\
    sort_items fromisoformat clk (load_contacts d) t = (inr sorted, t1) /\
    map stored_contact out = map stored (firstn (List.length out) sorted).
Proof.
  intros Hstable Haw HN.
  destruct (suggestions_run fromisoformat clk d m N t Haw)
    as [scored [t' [Hrun Hget]]].
  destruct (suggest_result _ _ _ _ _ _ _ _ Hrun)
    as [sorted [t1 [due [t2 [Hs [Hd [Ht [Ht' [Hst [Hlen _]]]]]]]]]].
  exists (map snd scored), sorted, t1.
  split; [rewrite Hget; reflexivity|]. split; [exact Hs|].
  destruct (sort_items_inr _ _ _ _ _ _ Hs)
    as [Ht1 [Hpermc [Hperm [Hsorted [Hscored [_ Hawc]]]]]].
  rewrite load_contacts_stored in Hperm.
  rewrite load_contacts_length in Ht1, Ht'.
  assert (Hlens : List.length sorted = List.length (contact d)).
  { apply Permutation_length in Hperm. rewrite length_map in Hperm. exact Hperm. }
  pose proof (sorted_aware _ _ _ _ _ _ Hs) as Hsaw.
  assert (Hkey : forall kc k, In kc sorted ->
             (t <= k < t + 3 * List.length (contact d))%nat ->
             fst kc = score_at fromisoformat (clk k) (doc (snd kc))).
  { intros kc k Hkc Hk.
    assert (Hin : In (stored kc) (contact d))
      by (eapply Permutation_in; [exact Hperm|apply in_map; exact Hkc]).
    rewrite Forall_forall in Hscored. specialize (Hscored kc Hkc).
    unfold scored_in in Hscored. unfold score_at.
    destruct (last_contact fromisoformat (doc (snd kc))) as [last|] eqn:E;
      [|exact Hscored].
    destruct Hscored as [k0 [Hk0 ->]]. unfold score_at. rewrite E.
    unfold whole_days.
    rewrite (Hstable (stored kc) last k0 Hin E ltac:(lia)).
    rewrite (Hstable (stored kc) last k Hin E Hk). reflexivity. }
  assert (Hdue : due = filter nonnegative_key sorted).
  { pose proof (filterM_pure_bounded
                  (fun kc => is_due fromisoformat clk (snd kc))
                  nonnegative_key sorted
                  (fun kc t0 => conj (is_due_advances fromisoformat clk (snd kc) t0)
                                     (is_due_step fromisoformat clk (snd kc) t0))
                  t1) as Hpure.
    unfold due_items in Hd. rewrite Hd in Hpure. simpl in Hpure.
    assert (H : inr due = inr (filter nonnegative_key sorted)
                :> Exception + list (Z * Contact)); [|congruence].
    apply Hpure. intros kc k Hkc Hk.
    rewrite Forall_forall in Hsaw.
    rewrite (is_due_aware _ _ (snd kc) k (Hsaw kc Hkc)). simpl.
    rewrite due_at_score_at. unfold nonnegative_key.
    rewrite (Hkey kc k Hkc ltac:(lia)). reflexivity. }
  assert (Hpool : exists n, list_or due sorted = firstn n sorted).
  { rewrite Hdue.
    pose proof (filter_nonnegative_prefix sorted Hsorted) as Hprefix.
    destruct (filter nonnegative_key sorted) as [|x l] eqn:E.
    - exists (List.length sorted). simpl. symmetry. apply firstn_all.
    - simpl list_or. eexists. exact Hprefix. }
  destruct Hpool as [n Hpool].
  rewrite map_stored_snd, length_map, Hst, Hlen, Hpool, target_eq.
  rewrite slice_to_firstn by assumption.
  rewrite firstn_firstn, length_firstn, firstn_min_length. reflexivity.
Qed.

Lemma suggestions_top_of_ranking_witness :
  exists out sorted t1,
    fst (get_suggestions demo_fromisoformat demo_clock (Some demo_db)
           "daily" 2 0%nat) = inr out /\
    sort_items demo_fromisoformat demo_clock (load_contacts demo_db) 0%nat
    = (inr sorted, t1) /\
    map stored_contact out = map stored (firstn (List.length out) sorted).
Proof.
  apply (suggestions_top_of_ranking demo_fromisoformat demo_clock DEMO_NOW
           demo_db "daily" 2 0%nat).
  - intros kd last k Hin Hlast Hk. simpl in Hk.
    destruct Hin as [<-|[<-|[<-|[]]]]; try discriminate Hlast;
      injection Hlast as <-;
      do 9 (destruct k as [|k]; [vm_compute; reflexivity|]); lia.
  - reflexivity.
  - lia.
Defined.

(** ** Timestamps without a time zone *)

(** X18: a contact whose lastContactedAt is a naive datetime, stored or
    parsed from a string without offset, makes [is_due] and [overdue_score]
    raise TypeError (an aware datetime minus a naive one), and a request for
    suggestions over a collection that holds such a contact raises it
    too. *)
Theorem naive_timestamp_raises fromisoformat clk d k doc0 last m count t :
  In (k, doc0) (contact d) ->
  last_contact fromisoformat doc0 = Some last ->
  aware last = false ->
  is_due fromisoformat clk {| id := k; doc := doc0; daysSince := None |} t
  = (inl TypeError, S t) /\
  overdue_score fromisoformat clk {| id := k; doc := doc0; daysSince := None |} t
  = (inl TypeError, S t) /\
  exists t',
    get_suggestions fromisoformat clk (Some d) m count t = (inl TypeError, t').
Proof.
  intros Hin Hlast Hnaive.
  assert (Hn : aware_timestamp fromisoformat doc0 = false)
    by (unfold aware_timestamp; rewrite Hlast; exact Hnaive).
  destruct (naive_raises fromisoformat clk
              {| id := k; doc := doc0; daysSince := None |} t Hn)
    as [H1 [H2 _]].
  split; [exact H1|]. split; [exact H2|].
  apply get_suggestions_raises.
  unfold timestamps_aware.
  destruct (forallb (fun kd => aware_timestamp fromisoformat (snd kd))
                    (contact d)) eqn:E; [|reflexivity].
  rewrite forallb_forall in E. specialize (E (k, doc0) Hin). simpl in E.
  congruence.
Qed.

Lemma naive_timestamp_raises_witness :
  is_due demo_fromisoformat demo_clock
    {| id := ALEX;
       doc := demo_doc "Alex Johnson" (Some 14) (Raw "0001-01-03T00:00:00");
       daysSince := None |} 0%nat
  = (inl TypeError, 1%nat) /\
  overdue_score demo_fromisoformat demo_clock
    {| id := ALEX;
       doc := demo_doc "Alex Johnson" (Some 14) (Raw "0001-01-03T00:00:00");
       daysSince := None |} 0%nat
  = (inl TypeError, 1%nat) /\
  exists t',
    get_suggestions demo_fromisoformat demo_clock (Some naive_db) "daily" 3
      0%nat = (inl TypeError, t').
Proof.
  apply (naive_timestamp_raises demo_fromisoformat demo_clock naive_db ALEX
           (demo_doc "Alex Johnson" (Some 14) (Raw "0001-01-03T00:00:00"))
           (naive (timedelta_of_days 2)) "daily" 3 0%nat).
  - right. left. reflexivity.
  - reflexivity.
  - reflexivity.
Defined.

(** ** Never-contacted contacts, within the ranges of the schema *)



(** ** Recording an interaction *)

Lemma bson_datetime_eq tz_aware a b :
  bson_datetime tz_aware (utc a) = bson_datetime tz_aware (utc b)
  <-> a / 1000 = b / 1000.
Proof.
  unfold bson_datetime, utc. cbn [micros]. split; intros H.
  - apply (f_equal micros) in H. cbn [micros] in H. lia.
  - rewrite H. reflexivity.
Qed.

(** A run of [add_interaction] for a contact that exists. *)
Lemma add_interaction_run
    clk tz_aware ObjectId create_document d contact_id oid data t c r d1 t1 :
  ObjectId contact_id = Some oid ->
  find_one oid (contact d) = Some c ->
  create_document "contactinteraction"
    (interaction_payload contact_id data (utc (clk t))) d (S t) = (r, d1, t1) ->
  add_interaction clk tz_aware ObjectId create_document (Some d) contact_id
    data t
  = (match ObjectId r with
     | None => inl InvalidId
     | Some iid =>
         match find_one iid (contactinteraction d1) with
         | Some doc => inr (iid, doc)
         | None => inr (r, interaction_payload contact_id data (utc (clk t)))
         end
     end,
     Some {| contact :=
               update_one oid
                 (touch (bson_datetime tz_aware (utc (clk t1)))
                        (bson_datetime tz_aware (utc (clk (S t1)))))
                 (contact d1);
             contactinteraction := contactinteraction d1;
             settings := settings d1 |},
     S (S t1)).
Proof.
  intros Hoid Hfind Hcreate.
  unfold add_interaction. simpl. rewrite Hoid, Hfind.
  unfold bind, ret, now_utc. rewrite Hcreate. simpl.
  destruct (ObjectId r) as [iid|]; [|reflexivity].
  destruct (find_one iid (contactinteraction d1)); reflexivity.
Qed.

(** C2, as stated, fails: the clock is read once for the interaction's
    createdAt and again for the contact's lastContactedAt; on the example
    clock the second reading is one second later. *)
Lemma add_interaction_reads_clock_twice :
  exists iid idoc d' c' t',
    add_interaction demo_clock true hex_ObjectId (append_document true)
      (Some demo_db) ALEX call 0%nat
    = (inr (iid, idoc), Some d', t') /\
    find_one iid (contactinteraction d') = Some idoc /\
    find_one ALEX (contact d') = Some c' /\
    createdAt idoc = utc DEMO_NOW /\
    lastContactedAt c' = At (utc (DEMO_NOW + 1000000)) /\
    lastContactedAt c' <> At (createdAt idoc).
Proof.
  do 5 eexists. split; [vm_compute; reflexivity|].
  repeat split; try (vm_compute; reflexivity).
  vm_compute. discriminate.
Qed.

(** C2, amended: recording an interaction for an existing contact succeeds;
    the interaction's createdAt is the clock reading taken when the payload
    is built and the contact's lastContactedAt is set to a later reading of
    the clock, taken when the contact is updated, each as the store keeps
    it, to the millisecond.  The two stored values are equal exactly when
    the two readings fall in the same millisecond. *)
Theorem add_interaction_sets_lastContactedAt
    clk tz_aware ObjectId create_document d contact_id oid data t c :
  ObjectId contact_id = Some oid ->
  find_one oid (contact d) = Some c ->
  create_keeps_contacts create_document
    (interaction_payload contact_id data (utc (clk t))) d (S t) ->
  create_advances create_document
    (interaction_payload contact_id data (utc (clk t))) d (S t) ->
  create_stores tz_aware ObjectId create_document
    (interaction_payload contact_id data (utc (clk t))) d (S t) ->
  exists iid idoc d' t' t2 c',
    add_interaction clk tz_aware ObjectId create_document (Some d) contact_id
      data t
    = (inr (iid, idoc), Some d', t') /\
    find_one iid (contactinteraction d') = Some idoc /\
    createdAt idoc
    = {| micros := 1000 * (clk t / 1000); aware := tz_aware |} /\
    (t < t2 < t')%nat /\
    find_one oid (contact d') = Some c' /\
    lastContactedAt c'
    = At {| micros := 1000 * (clk t2 / 1000); aware := tz_aware |} /\
    (lastContactedAt c' = At (createdAt idoc) <-> clk t2 / 1000 = clk t / 1000).
Proof.
  intros Hoid Hfind Hkeeps Hadv Hstores.
  unfold create_keeps_contacts, create_advances, create_stores in *.
  destruct (create_document "contactinteraction"
              (interaction_payload contact_id data (utc (clk t))) d (S t))
    as [[r d1] t1] eqn:Hcreate.
  simpl in Hkeeps, Hadv, Hstores.
  destruct Hstores as [iid [found [Hiid [Hfound Hcreated]]]].
  pose proof (add_interaction_run clk tz_aware ObjectId create_document d
                contact_id oid data t c r d1 t1 Hoid Hfind Hcreate) as Hrun.
  rewrite Hiid, Hfound in Hrun.
  exists iid, found. eexists. eexists. exists t1. eexists.
  split; [exact Hrun|]. simpl.
  split; [exact Hfound|]. split; [exact Hcreated|]. split; [lia|].
  split; [rewrite find_one_update_one, Hkeeps, Hfind; reflexivity|].
  split; [reflexivity|]. simpl. rewrite Hcreated. simpl.
  rewrite <- (bson_datetime_eq tz_aware (clk t1) (clk t)).
  split; intros H; congruence.
Qed.

Lemma add_interaction_sets_lastContactedAt_witness :
  exists iid idoc d' t' t2 c',
    add_interaction demo_clock true hex_ObjectId (append_document true)
      (Some demo_db) ALEX call 0%nat
    = (inr (iid, idoc), Some d', t') /\
    find_one iid (contactinteraction d') = Some idoc /\
    createdAt idoc
    = {| micros := 1000 * (demo_clock 0%nat / 1000); aware := true |} /\
    (0 < t2 < t')%nat /\
    find_one ALEX (contact d') = Some c' /\
    lastContactedAt c'
    = At {| micros := 1000 * (demo_clock t2 / 1000); aware := true |} /\
    (lastContactedAt c' = At (createdAt idoc)
     <-> demo_clock t2 / 1000 = demo_clock 0%nat / 1000).
Proof.
  apply (add_interaction_sets_lastContactedAt demo_clock true hex_ObjectId
           (append_document true) demo_db ALEX ALEX call 0%nat alex_doc).
  - reflexivity.
  - reflexivity.
  - reflexivity.
  - unfold create_advances. simpl. lia.
  - eexists. eexists. split; [vm_compute; reflexivity|].
    split; [vm_compute; reflexivity|]. reflexivity.
Defined.

(** ** Unknown contacts *)

(** X8: when no stored contact has the identifier the request string
    denotes, [add_interaction], [update_contact] and [delete_contact] answer
    404 and leave the database as it was: no interaction is created or
    deleted; [update_contact] has read the clock once by then,
    [add_interaction] not at all.  When the string denotes no identifier,
    [ObjectId] raises InvalidId in all three before the clock is read and
    before anything is written. *)
Theorem unknown_contact_not_found
    clk tz_aware ObjectId create_document d contact_id idata cdata t :
  (forall oid, ObjectId contact_id = Some oid ->
               find_one oid (contact d) = None) ->
  match ObjectId contact_id with
  | Some _ =>
      add_interaction clk tz_aware ObjectId create_document (Some d)
        contact_id idata t
      = (inl (HTTPError 404 "Contact not found"), Some d, t) /\
      update_contact clk tz_aware ObjectId (Some d) contact_id cdata t
      = (inl (HTTPError 404 "Contact not found"), Some d, S t) /\
      delete_contact ObjectId (Some d) contact_id
      = (inl (HTTPError 404 "Contact not found"), Some d)
  | None =>
      add_interaction clk tz_aware ObjectId create_document (Some d)
        contact_id idata t
      = (inl InvalidId, Some d, t) /\
      update_contact clk tz_aware ObjectId (Some d) contact_id cdata t
      = (inl InvalidId, Some d, t) /\
      delete_contact ObjectId (Some d) contact_id
      = (inl InvalidId, Some d)
  end.
Proof.
  intros Hnone.
  unfold add_interaction, update_contact, delete_contact. simpl.
  destruct (ObjectId contact_id) as [oid|] eqn:E.
  - specialize (Hnone oid eq_refl). rewrite Hnone.
    unfold bind, ret, now_utc. simpl.
    rewrite (proj2 (count_matched_zero oid (contact d)) Hnone). simpl.
    rewrite (update_one_absent _ _ _ Hnone), (delete_one_absent _ _ Hnone).
    destruct d. repeat split.
  - repeat split.
Qed.

Lemma unknown_contact_not_found_witness :
  (add_interaction demo_clock true hex_ObjectId (append_document true)
     (Some busy_db) "65f0a1b2c3d4e5f6012345ff" call 0%nat
   = (inl (HTTPError 404 "Contact not found"), Some busy_db, 0%nat) /\
   update_contact demo_clock true hex_ObjectId (Some busy_db)
     "65f0a1b2c3d4e5f6012345ff" demo_contact_in 0%nat
   = (inl (HTTPError 404 "Contact not found"), Some busy_db, 1%nat) /\
   delete_contact hex_ObjectId (Some busy_db) "65f0a1b2c3d4e5f6012345ff"
   = (inl (HTTPError 404 "Contact not found"), Some busy_db)) /\
  (add_interaction demo_clock true hex_ObjectId (append_document true)
     (Some busy_db) "zz" call 0%nat
   = (inl InvalidId, Some busy_db, 0%nat) /\
   update_contact demo_clock true hex_ObjectId (Some busy_db) "zz"
     demo_contact_in 0%nat
   = (inl InvalidId, Some busy_db, 0%nat) /\
   delete_contact hex_ObjectId (Some busy_db) "zz"
   = (inl InvalidId, Some busy_db)).
Proof.
  split.
  - apply (unknown_contact_not_found demo_clock true hex_ObjectId
             (append_document true) busy_db "65f0a1b2c3d4e5f6012345ff"
             call demo_contact_in 0%nat).
    intros oid H. vm_compute in H. injection H as <-. reflexivity.
  - apply (unknown_contact_not_found demo_clock true hex_ObjectId
             (append_document true) busy_db "zz" call demo_contact_in 0%nat).
    intros oid H. vm_compute in H. discriminate H.
Defined.

(** ** The effect of an interaction on the contacts *)

(** X9: when creating the interaction leaves the contacts alone, recording
    an interaction for an existing contact keeps the contact collection's
    identifiers and their order, leaves every other contact as it was, and
    changes nothing of the contact itself but lastContactedAt and
    updated_at.  The only exception the call can then end with is the
    InvalidId of an identifier, returned by the storage layer, that
    [ObjectId] refuses; the contact is updated by then. *)
Theorem add_interaction_touches_one_contact
    clk tz_aware ObjectId create_document d contact_id oid data t c :
  ObjectId contact_id = Some oid ->
  find_one oid (contact d) = Some c ->
  create_keeps_contacts create_document
    (interaction_payload contact_id data (utc (clk t))) d (S t) ->
  exists res d' t' c',
    add_interaction clk tz_aware ObjectId create_document (Some d) contact_id
      data t
    = (res, Some d', t') /\
    (forall e, res = inl e -> e = InvalidId) /\
    map fst (contact d') = map fst (contact d) /\
    (forall k, k <> oid -> find_one k (contact d') = find_one k (contact d)) /\
    find_one oid (contact d') = Some c' /\
    fullName c' = fullName c /\
    relationship c' = relationship c /\
    phoneNumber c' = phoneNumber c /\
    email c' = email c /\
    frequencyDays c' = frequencyDays c /\
    priority c' = priority c.
Proof.
  intros Hoid Hfind Hkeeps. unfold create_keeps_contacts in Hkeeps.
  destruct (create_document "contactinteraction"
              (interaction_payload contact_id data (utc (clk t))) d (S t))
    as [[r d1] t1] eqn:Hcreate.
  simpl in Hkeeps.
  do 4 eexists.
  split; [apply (add_interaction_run clk tz_aware ObjectId create_document d
                   contact_id oid data t c r d1 t1 Hoid Hfind Hcreate)|].
  simpl. rewrite Hkeeps.
  split.
  { intros e. destruct (ObjectId r) as [iid|]; [|congruence].
    destruct (find_one iid (contactinteraction d1)); discriminate. }
  split; [apply update_one_keys|].
  split; [intros k Hk; apply find_one_update_one_other; exact Hk|].
  split; [rewrite find_one_update_one, Hfind; reflexivity|].
  repeat split; reflexivity.
Qed.

Lemma add_interaction_touches_one_contact_witness :
  exists res d' t' c',
    add_interaction demo_clock true hex_ObjectId (append_document true)
      (Some busy_db) JAMIE call 0%nat
    = (res, Some d', t') /\
    (forall e, res = inl e -> e = InvalidId) /\
    map fst (contact d') = map fst (contact busy_db) /\
    (forall k, k <> JAMIE ->
               find_one k (contact d') = find_one k (contact busy_db)) /\
    find_one JAMIE (contact d') = Some c' /\
    fullName c' = fullName jamie_doc /\
    relationship c' = relationship jamie_doc /\
    phoneNumber c' = phoneNumber jamie_doc /\
    email c' = email jamie_doc /\
    frequencyDays c' = frequencyDays jamie_doc /\
    priority c' = priority jamie_doc.
Proof.
  apply (add_interaction_touches_one_contact demo_clock true hex_ObjectId
           (append_document true) busy_db JAMIE JAMIE call 0%nat jamie_doc).
  - reflexivity.
  - reflexivity.
  - reflexivity.
Defined.

(** X10: after an interaction is recorded for a contact, the contact's
    lastContactedAt is a clock reading of the call, kept to the millisecond.
    When the store gives datetimes back timezone-aware, [is_due] is then
    true for that contact at a reading of the clock exactly when
    frequencyDays days or more separate that reading from the stored
    instant; when it gives them back naive, [is_due] raises TypeError for
    that contact. *)
Theorem add_interaction_restarts_the_wait
    fromisoformat clk tz_aware ObjectId create_document d contact_id oid data
    t c :
  ObjectId contact_id = Some oid ->
  find_one oid (contact d) = Some c ->
  create_keeps_contacts create_document
    (interaction_payload contact_id data (utc (clk t))) d (S t) ->
  create_advances create_document
    (interaction_payload contact_id data (utc (clk t))) d (S t) ->
  exists res d' t' t2 c',
    add_interaction clk tz_aware ObjectId create_document (Some d) contact_id
      data t
    = (res, Some d', t') /\
    (t < t2 < t')%nat /\
    find_one oid (contact d') = Some c' /\
    lastContactedAt c'
    = At {| micros := 1000 * (clk t2 / 1000); aware := tz_aware |} /\
    frequencyDays c' = frequencyDays c /\
    forall k ds,
      let after := {| id := oid; doc := c'; daysSince := ds |} in
      if tz_aware
      then
        exists due,
          is_due fromisoformat clk after k = (inr due, S k) /\
          (due = true <->
           match frequencyDays c with Some f => f | None => 30 end
           * 86400000000 <= clk k - 1000 * (clk t2 / 1000))
      else is_due fromisoformat clk after k = (inl TypeError, S k).
Proof.
  intros Hoid Hfind Hkeeps Hadv.
  unfold create_keeps_contacts, create_advances in *.
  destruct (create_document "contactinteraction"
              (interaction_payload contact_id data (utc (clk t))) d (S t))
    as [[r d1] t1] eqn:Hcreate.
  simpl in Hkeeps, Hadv.
  eexists. eexists. eexists. exists t1. eexists.
  split; [apply (add_interaction_run clk tz_aware ObjectId create_document d
                   contact_id oid data t c r d1 t1 Hoid Hfind Hcreate)|].
  simpl. rewrite Hkeeps.
  split; [lia|].
  split; [rewrite find_one_update_one, Hfind; reflexivity|].
  split; [reflexivity|]. split; [reflexivity|].
  intros k ds. simpl.
  unfold is_due, get_last, get_frequencyDays, days_elapsed, bind_ok, bind, ret,
    ok, now_utc, datetime_sub. simpl.
  destruct tz_aware; simpl; [|reflexivity].
  eexists. split; [reflexivity|].
  rewrite Z.leb_le. apply whole_days_ge_iff.
Qed.

Lemma add_interaction_restarts_the_wait_witness :
  exists res d' t' t2 c',
    add_interaction demo_clock true hex_ObjectId (append_document true)
      (Some busy_db) JAMIE call 0%nat
    = (res, Some d', t') /\
    (0 < t2 < t')%nat /\
    find_one JAMIE (contact d') = Some c' /\
    lastContactedAt c'
    = At {| micros := 1000 * (demo_clock t2 / 1000); aware := true |} /\
    frequencyDays c' = frequencyDays jamie_doc /\
    forall k ds,
      let after := {| id := JAMIE; doc := c'; daysSince := ds |} in
      exists due,
        is_due demo_fromisoformat demo_clock after k = (inr due, S k) /\
        (due = true <->
         match frequencyDays jamie_doc with Some f => f | None => 30 end
         * 86400000000 <= demo_clock k - 1000 * (demo_clock t2 / 1000)).
Proof.
  apply (add_interaction_restarts_the_wait demo_fromisoformat demo_clock true
           hex_ObjectId (append_document true) busy_db JAMIE JAMIE call 0%nat
           jamie_doc).
  - reflexivity.
  - reflexivity.
  - reflexivity.
  - unfold create_advances. simpl. lia.
Defined.

(** ** Settings *)

(** X11: [get_settings] answers the stored settings, or the defaults (daily,
    3, 10, [7; 30; 90]) which it then stores; asked again it answers the
    same and changes nothing more.  It never touches contacts or
    interactions. *)
Theorem get_settings_idempotent d :
  exists s d',
    get_settings (Some d) = (inr s, Some d') /\
    get_settings (Some d') = (inr s, Some d') /\
    settings d' = Some s /\
    contact d' = contact d /\
    contactinteraction d' = contactinteraction d /\
    (settings d = None -> s = DEFAULT_SETTINGS) /\
    (forall s0, settings d = Some s0 -> s = s0 /\ d' = d).
Proof.
  unfold get_settings. simpl.
  destruct (settings d) as [s0|] eqn:E.
  - exists s0, d. rewrite E.
    repeat split; try reflexivity; try assumption; try congruence.
  - do 2 eexists. split; [reflexivity|]. simpl.
    repeat split; try reflexivity; intros; discriminate.
Qed.

(** X12: what [update_settings] is given is what it answers and what
    [get_settings] answers afterwards; contacts, interactions and the
    answers of [get_suggestions] are the same as before the update. *)
Theorem update_settings_round_trip fromisoformat clk d data m count t :
  exists d',
    update_settings (Some d) data = (inr data, Some d') /\
    get_settings (Some d') = (inr data, Some d') /\
    contact d' = contact d /\
    contactinteraction d' = contactinteraction d /\
    get_suggestions_request fromisoformat clk (Some d') m count t
    = get_suggestions_request fromisoformat clk (Some d) m count t.
Proof.
  eexists. split; [reflexivity|].
  repeat split; reflexivity.
Qed.

(** ** Updating and deleting contacts *)

Lemma update_contact_run clk tz_aware ObjectId d contact_id oid data t c :
  ObjectId contact_id = Some oid ->
  find_one oid (contact d) = Some c ->
  update_contact clk tz_aware ObjectId (Some d) contact_id data t
  = (inr (oid, contact_set tz_aware data (utc (clk t)) c),
     Some {| contact :=
               update_one oid (contact_set tz_aware data (utc (clk t)))
                 (contact d);
             contactinteraction := contactinteraction d;
             settings := settings d |},
     S t).
Proof.
  intros Hoid Hfind. unfold update_contact. simpl. rewrite Hoid.
  unfold bind, ret, now_utc. simpl.
  unfold count_matched. rewrite Hfind. simpl.
  rewrite find_one_update_one, Hfind. reflexivity.
Qed.

(** X13: [update_contact] on an existing contact stores the submitted
    fields, stamped with the clock reading, under the identifier the request
    denotes, and answers the document read back: the datetimes are those
    the store keeps, to the millisecond.  It keeps the identifiers and
    their order, and leaves the other contacts, the interactions and the
    settings as they were. *)
Theorem update_contact_stores_data
    clk tz_aware ObjectId d contact_id oid data t c :
  ObjectId contact_id = Some oid ->
  find_one oid (contact d) = Some c ->
  exists doc d',
    update_contact clk tz_aware ObjectId (Some d) contact_id data t
    = (inr (oid, doc), Some d', S t) /\
    find_one oid (contact d') = Some doc /\
    fullName doc = ci_fullName data /\
    relationship doc = ci_relationship data /\
    phoneNumber doc = ci_phoneNumber data /\
    email doc = ci_email data /\
    frequencyDays doc = Some (ci_frequencyDays data) /\
    lastContactedAt doc
    = match ci_lastContactedAt data with
      | Some last =>
          At {| micros := 1000 * (micros last / 1000); aware := tz_aware |}
      | None => Absent
      end /\
    priority doc = ci_priority data /\
    updated_at doc
    = Some {| micros := 1000 * (clk t / 1000); aware := tz_aware |} /\
    map fst (contact d') = map fst (contact d) /\
    (forall k, k <> oid -> find_one k (contact d') = find_one k (contact d)) /\
    contactinteraction d' = contactinteraction d /\
    settings d' = settings d.
Proof.
  intros Hoid Hfind. do 2 eexists.
  split; [apply (update_contact_run clk tz_aware ObjectId d contact_id oid data
                   t c Hoid Hfind)|].
  simpl.
  split; [rewrite find_one_update_one, Hfind; reflexivity|].
  repeat split; try reflexivity.
  - apply update_one_keys.
  - intros k Hk. apply find_one_update_one_other. exact Hk.
Qed.

Lemma update_contact_stores_data_witness :
  exists doc d',
    update_contact demo_clock true hex_ObjectId (Some busy_db) ALEX_UPPER
      demo_contact_in 0%nat
    = (inr (ALEX, doc), Some d', 1%nat) /\
    find_one ALEX (contact d') = Some doc /\
    fullName doc = ci_fullName demo_contact_in /\
    relationship doc = ci_relationship demo_contact_in /\
    phoneNumber doc = ci_phoneNumber demo_contact_in /\
    email doc = ci_email demo_contact_in /\
    frequencyDays doc = Some (ci_frequencyDays demo_contact_in) /\
    lastContactedAt doc
    = match ci_lastContactedAt demo_contact_in with
      | Some last =>
          At {| micros := 1000 * (micros last / 1000); aware := true |}
      | None => Absent
      end /\
    priority doc = ci_priority demo_contact_in /\
    updated_at doc
    = Some {| micros := 1000 * (demo_clock 0%nat / 1000); aware := true |} /\
    map fst (contact d') = map fst (contact busy_db) /\
    (forall k, k <> ALEX ->
               find_one k (contact d') = find_one k (contact busy_db)) /\
    contactinteraction d' = contactinteraction busy_db /\
    settings d' = settings busy_db.
Proof.
  apply (update_contact_stores_data demo_clock true hex_ObjectId busy_db
           ALEX_UPPER ALEX demo_contact_in 0%nat alex_doc).
  - reflexivity.
  - reflexivity.
Defined.

(** X14: [update_contact] with a body that names no lastContactedAt erases
    the stored one: whatever was recorded before, the contact is then
    handled as never contacted, due and with the top score. *)
Theorem update_contact_erases_lastContactedAt
    fromisoformat clk tz_aware ObjectId d contact_id oid data t c :
  ObjectId contact_id = Some oid ->
  find_one oid (contact d) = Some c ->
  ci_lastContactedAt data = None ->
  exists doc d',
    update_contact clk tz_aware ObjectId (Some d) contact_id data t
    = (inr (oid, doc), Some d', S t) /\
    find_one oid (contact d') = Some doc /\
    lastContactedAt doc = Absent /\
    forall k ds,
      is_due fromisoformat clk {| id := oid; doc := doc; daysSince := ds |} k
      = (inr true, k) /\
      overdue_score fromisoformat clk
        {| id := oid; doc := doc; daysSince := ds |} k
      = (inr 1000000000, k).
Proof.
  intros Hoid Hfind Hnone. do 2 eexists.
  split; [apply (update_contact_run clk tz_aware ObjectId d contact_id oid data
                   t c Hoid Hfind)|].
  simpl.
  split; [rewrite find_one_update_one, Hfind; reflexivity|].
  rewrite Hnone. split; [reflexivity|].
  intros k ds. unfold is_due, overdue_score, get_last. simpl.
  rewrite Hnone. split; reflexivity.
Qed.

Lemma update_contact_erases_lastContactedAt_witness :
  exists doc d',
    update_contact demo_clock true hex_ObjectId (Some busy_db) ALEX
      demo_contact_in 0%nat
    = (inr (ALEX, doc), Some d', 1%nat) /\
    find_one ALEX (contact d') = Some doc /\
    lastContactedAt doc = Absent /\
    forall k ds,
      is_due demo_fromisoformat demo_clock
        {| id := ALEX; doc := doc; daysSince := ds |} k = (inr true, k) /\
      overdue_score demo_fromisoformat demo_clock
        {| id := ALEX; doc := doc; daysSince := ds |} k
      = (inr 1000000000, k).
Proof.
  apply (update_contact_erases_lastContactedAt demo_fromisoformat demo_clock
           true hex_ObjectId busy_db ALEX ALEX demo_contact_in 0%nat alex_doc).
  - reflexivity.
  - reflexivity.
  - reflexivity.
Defined.

Lemma delete_contact_run ObjectId d contact_id oid c :
  ObjectId contact_id = Some oid ->
  find_one oid (contact d) = Some c ->
  delete_contact ObjectId (Some d) contact_id
  = (inr true,
     Some {| contact := delete_one oid (contact d);
             contactinteraction :=
               delete_many_contactId contact_id (contactinteraction d);
             settings := settings d |}).
Proof.
  intros Hoid Hfind. unfold delete_contact. simpl. rewrite Hoid.
  unfold count_matched. rewrite Hfind. reflexivity.
Qed.

(** X15: when the stored identifiers are distinct, [delete_contact] on an
    existing contact removes the contact the request string denotes, and
    the interactions whose contactId is that very string; the other
    contacts and every other interaction stay, in their order, also the
    interactions recorded for the same contact under another spelling of
    its identifier. *)
Theorem delete_contact_removes ObjectId d contact_id oid c :
  NoDup (map fst (contact d)) ->
  ObjectId contact_id = Some oid ->
  find_one oid (contact d) = Some c ->
  exists d',
    delete_contact ObjectId (Some d) contact_id = (inr true, Some d') /\
    find_one oid (contact d') = None /\
    (forall k, k <> oid -> find_one k (contact d') = find_one k (contact d)) /\
    subseq (contact d') (contact d) /\
    S (List.length (contact d')) = List.length (contact d) /\
    NoDup (map fst (contact d')) /\
    subseq (contactinteraction d') (contactinteraction d) /\
    (forall kd, In kd (contactinteraction d') <->
                In kd (contactinteraction d) /\
                contactId (snd kd) <> contact_id) /\
    (forall kd, In kd (contactinteraction d) ->
                contactId (snd kd) <> contact_id ->
                ObjectId (contactId (snd kd)) = Some oid ->
                In kd (contactinteraction d')) /\
    settings d' = settings d.
Proof.
  intros Hnd Hoid Hfind. eexists.
  split; [apply (delete_contact_run ObjectId d contact_id oid c Hoid Hfind)|].
  simpl.
  assert (Hiff : forall kd,
             In kd (delete_many_contactId contact_id (contactinteraction d)) <->
             In kd (contactinteraction d) /\ contactId (snd kd) <> contact_id).
  { intros kd. unfold delete_many_contactId. rewrite filter_In.
    rewrite negb_true_iff, String.eqb_neq. tauto. }
  split; [apply find_one_delete_one; exact Hnd|].
  split; [intros k Hk; apply find_one_delete_one_other; exact Hk|].
  split; [apply delete_one_subseq|].
  split.
  { clear Hnd. revert Hfind.
    induction (contact d) as [|[k0 x] rest IH]; simpl; [discriminate|].
    destruct (String.eqb k0 oid); [reflexivity|].
    intros H. simpl. rewrite (IH H). reflexivity. }
  split.
  { eapply subseq_NoDup; [|exact Hnd].
    apply subseq_map, delete_one_subseq. }
  split; [apply subseq_filter_l|].
  split; [exact Hiff|].
  split; [|reflexivity].
  intros kd Hin Hne _. apply Hiff. split; assumption.
Qed.

Lemma delete_contact_removes_witness :
  exists d',
    delete_contact hex_ObjectId (Some busy_db) ALEX = (inr true, Some d') /\
    find_one ALEX (contact d') = None /\
    (forall k, k <> ALEX ->
               find_one k (contact d') = find_one k (contact busy_db)) /\
    subseq (contact d') (contact busy_db) /\
    S (List.length (contact d')) = List.length (contact busy_db) /\
    NoDup (map fst (contact d')) /\
    subseq (contactinteraction d') (contactinteraction busy_db) /\
    (forall kd, In kd (contactinteraction d') <->
                In kd (contactinteraction busy_db) /\
                contactId (snd kd) <> ALEX) /\
    (forall kd, In kd (contactinteraction busy_db) ->
                contactId (snd kd) <> ALEX ->
                hex_ObjectId (contactId (snd kd)) = Some ALEX ->
                In kd (contactinteraction d')) /\
    settings d' = settings busy_db.
Proof.
  apply (delete_contact_removes hex_ObjectId busy_db ALEX ALEX alex_doc).
  - simpl. repeat constructor; simpl; intuition discriminate.
  - reflexivity.
  - reflexivity.
Defined.

(** The interaction recorded for Alex under the upper-case spelling of the
    identifier outlives Alex. *)
Example delete_contact_leaves_other_spelling :
  hex_ObjectId ALEX_UPPER = Some ALEX /\
  exists d',
    delete_contact hex_ObjectId (Some busy_db) ALEX = (inr true, Some d') /\
    find_one ALEX (contact d') = None /\
    map (fun kd => contactId (snd kd)) (contactinteraction d')
    = [JAMIE; ALEX_UPPER].
Proof.
  split; [vm_compute; reflexivity|].
  eexists. split; [vm_compute; reflexivity|].
  split; vm_compute; reflexivity.
Qed.

Lemma timestamps_aware_subseq fromisoformat d d' :
  subseq (contact d') (contact d) ->
  timestamps_aware fromisoformat d = true ->
  timestamps_aware fromisoformat d' = true.
Proof.
  unfold timestamps_aware. intros Hsub H.
  rewrite forallb_forall in *. intros kd Hkd.
  apply H. eapply subseq_In; [exact Hsub|exact Hkd].
Qed.

(** X16: when the stored identifiers are distinct, a contact that
    [delete_contact] has removed is not among the contacts
    [get_suggestions] returns afterwards, and an interaction can no longer
    be recorded for it. *)
Theorem deleted_contact_is_gone
    fromisoformat clk tz_aware ObjectId create_document d contact_id oid c
    m count data t :
  NoDup (map fst (contact d)) ->
  ObjectId contact_id = Some oid ->
  find_one oid (contact d) = Some c ->
  exists d',
    delete_contact ObjectId (Some d) contact_id = (inr true, Some d') /\
    (timestamps_aware fromisoformat d = true ->
     exists out,
       fst (get_suggestions fromisoformat clk (Some d') m count t) = inr out) /\
    (forall out,
        fst (get_suggestions fromisoformat clk (Some d') m count t) = inr out ->
        ~ In oid (map id out)) /\
    add_interaction clk tz_aware ObjectId create_document (Some d') contact_id
      data t
    = (inl (HTTPError 404 "Contact not found"), Some d', t).
Proof.
  intros Hnd Hoid Hfind. eexists.
  split; [apply (delete_contact_run ObjectId d contact_id oid c Hoid Hfind)|].
  pose proof (find_one_delete_one oid (contact d) Hnd) as Hgone.
  set (d' := {| contact := delete_one oid (contact d);
                contactinteraction :=
                  delete_many_contactId contact_id (contactinteraction d);
                settings := settings d |}).
  split.
  { intros Haw.
    assert (Haw' : timestamps_aware fromisoformat d' = true)
      by (eapply timestamps_aware_subseq; [apply delete_one_subseq|exact Haw]).
    destruct (suggestions_run fromisoformat clk d' m count t Haw')
      as [scored [t' [_ Hget]]].
    exists (map snd scored). rewrite Hget. reflexivity. }
  split.
  - intros out Hout Hin.
    destruct (get_suggestions fromisoformat clk (Some d') m count t)
      as [r t'] eqn:Hget.
    simpl in Hout. subst r.
    destruct (get_suggestions_inv _ _ _ _ _ _ _ _ Hget) as [scored [Hrun ->]].
    destruct (suggest_order _ _ _ _ _ _ _ _ Hrun) as [_ [_ [_ [rest Hrest]]]].
    rewrite load_contacts_stored in Hrest.
    rewrite map_map in Hin. apply in_map_iff in Hin.
    destruct Hin as [kc [Hid Hkc]].
    assert (Hst : In (stored kc) (contact d')).
    { eapply Permutation_in; [exact Hrest|].
      apply in_or_app. left. apply in_map. exact Hkc. }
    unfold stored in Hst. rewrite Hid in Hst.
    apply In_find_one in Hst. apply Hst. exact Hgone.
  - unfold add_interaction. simpl. rewrite Hoid, Hgone. reflexivity.
Qed.

Lemma deleted_contact_is_gone_witness :
  exists d',
    delete_contact hex_ObjectId (Some busy_db) ALEX = (inr true, Some d') /\
    (timestamps_aware demo_fromisoformat busy_db = true ->
     exists out,
       fst (get_suggestions demo_fromisoformat demo_clock (Some d')
              "daily" 3 0%nat) = inr out) /\
    (forall out,
        fst (get_suggestions demo_fromisoformat demo_clock (Some d')
               "daily" 3 0%nat) = inr out ->
        ~ In ALEX (map id out)) /\
    add_interaction demo_clock true hex_ObjectId (append_document true)
      (Some d') ALEX call 0%nat
    = (inl (HTTPError 404 "Contact not found"), Some d', 0%nat).
Proof.
  apply (deleted_contact_is_gone demo_fromisoformat demo_clock true
           hex_ObjectId (append_document true) busy_db ALEX ALEX alex_doc
           "daily" 3 call 0%nat).
  - simpl. repeat constructor; simpl; intuition discriminate.
  - reflexivity.
  - reflexivity.
Defined.

(** ** Seeding *)

Lemma seed_demo_nonempty clk create_document d t :
  contact d <> [] ->
  seed_demo clk create_document (Some d) t
  = (inr (NotSeeded "Contacts already exist"), Some d, t).
Proof.
  intros Hne. unfold seed_demo. simpl.
  destruct (contact d) as [|x l]; [congruence|]. reflexivity.
Qed.

(** X17: [seed_demo] answers "Contacts already exist" without touching the
    database or the clock when a contact exists.  On an empty contact
    collection, and a storage layer that appends what it creates, it reads
    the clock twice, stores Alex (every 14 days, 30 days before the first
    reading), Jamie (every 30 days, 90 days before the second reading) and
    Taylor (every 7 days, never contacted), in this order, and answers
    count 3 with their identifiers; seeding again changes nothing. *)
Theorem seed_demo_once clk tz_aware create_document d t :
  create_appends tz_aware create_document ->
  exists r d1 t1,
    seed_demo clk create_document (Some d) t = (inr r, Some d1, t1) /\
    (contact d <> [] ->
     r = NotSeeded "Contacts already exist" /\ d1 = d /\ t1 = t) /\
    (contact d = [] ->
     exists i1 i2 i3 c1 c2 c3,
       r = Seeded 3 [i1; i2; i3] /\
       contact d1 = [(i1, c1); (i2, c2); (i3, c3)] /\
       (fullName c1 = "Alex Johnson" /\ frequencyDays c1 = Some 14 /\
        lastContactedAt c1
        = At {| micros := 1000 * ((clk t - 30 * 86400000000) / 1000);
                aware := tz_aware |}) /\
       (fullName c2 = "Jamie Lee" /\ frequencyDays c2 = Some 30 /\
        lastContactedAt c2
        = At {| micros := 1000 * ((clk (S t) - 90 * 86400000000) / 1000);
                aware := tz_aware |}) /\
       (fullName c3 = "Taylor Kim" /\ frequencyDays c3 = Some 7 /\
        lastContactedAt c3 = Absent)) /\
    seed_demo clk create_document (Some d1) t1
    = (inr (NotSeeded "Contacts already exist"), Some d1, t1).
Proof.
  intros Happends.
  destruct (contact d) as [|x l] eqn:E.
  - pose proof (Happends
                  (seed_doc "Alex Johnson" "friend" "+15551234567"
                     (Some "alex@example.com") 14
                     (At (datetime_minus (utc (clk t)) (timedelta_of_days 30)))
                     3) d (S (S t))) as H1.
    destruct (create_document "contact"
                (seed_doc "Alex Johnson" "friend" "+15551234567"
                   (Some "alex@example.com") 14
                   (At (datetime_minus (utc (clk t)) (timedelta_of_days 30)))
                   3) d (S (S t)))
      as [[i1 d1] t1] eqn:E1.
    pose proof (Happends
                  (seed_doc "Jamie Lee" "business" "+15557654321"
                     (Some "jamie@work.co") 30
                     (At (datetime_minus (utc (clk (S t)))
                            (timedelta_of_days 90))) 4) d1 t1) as H2.
    destruct (create_document "contact"
                (seed_doc "Jamie Lee" "business" "+15557654321"
                   (Some "jamie@work.co") 30
                   (At (datetime_minus (utc (clk (S t)))
                          (timedelta_of_days 90))) 4) d1 t1)
      as [[i2 d2] t2] eqn:E2.
    pose proof (Happends
                  (seed_doc "Taylor Kim" "family" "+15559876543" None 7
                     Absent 5) d2 t2) as H3.
    destruct (create_document "contact"
                (seed_doc "Taylor Kim" "family" "+15559876543" None 7 Absent 5)
                d2 t2)
      as [[i3 d3] t3] eqn:E3.
    cbn [fst snd] in H1, H2, H3.
    destruct H1 as [c1 [H1 [Hn1 [_ [_ [_ [Hf1 [Hl1 _]]]]]]]].
    destruct H2 as [c2 [H2 [Hn2 [_ [_ [_ [Hf2 [Hl2 _]]]]]]]].
    destruct H3 as [c3 [H3 [Hn3 [_ [_ [_ [Hf3 [Hl3 _]]]]]]]].
    assert (Hrun : seed_demo clk create_document (Some d) t
                   = (inr (Seeded 3 [i1; i2; i3]), Some d3, t3)).
    { unfold seed_demo. cbn [collection]. rewrite E.
      cbn [List.length Z.of_nat Z.ltb Z.compare].
      unfold bind, ret, now_utc. cbn [create_all seed_contacts].
      unfold bind, ret. rewrite E1. cbn [fst snd]. rewrite E2.
      cbn [fst snd]. rewrite E3. reflexivity. }
    assert (Hd3 : contact d3 = [(i1, c1); (i2, c2); (i3, c3)])
      by (rewrite H3, H2, H1, E; reflexivity).
    exists (Seeded 3 [i1; i2; i3]), d3, t3.
    split; [exact Hrun|].
    split; [intros H; congruence|].
    split.
    { intros _. exists i1, i2, i3, c1, c2, c3.
      split; [reflexivity|]. split; [exact Hd3|].
      split; [split; [exact Hn1|split; [exact Hf1|exact Hl1]]|].
      split; [split; [exact Hn2|split; [exact Hf2|exact Hl2]]|].
      split; [exact Hn3|split; [exact Hf3|exact Hl3]]. }
    apply seed_demo_nonempty. rewrite Hd3. discriminate.
  - assert (Hne : contact d <> []) by (rewrite E; discriminate).
    exists (NotSeeded "Contacts already exist"), d, t.
    split; [apply seed_demo_nonempty; exact Hne|].
    split; [intros _; repeat split|].
    split; [intros H; discriminate|].
    apply seed_demo_nonempty; exact Hne.
Qed.

Lemma seed_demo_once_witness :
  exists r d1 t1,
    seed_demo demo_clock (append_contact true) (Some empty_db) 0%nat
    = (inr r, Some d1, t1) /\
    (contact empty_db <> [] ->
     r = NotSeeded "Contacts already exist" /\ d1 = empty_db /\ t1 = 0%nat) /\
    (contact empty_db = [] ->
     exists i1 i2 i3 c1 c2 c3,
       r = Seeded 3 [i1; i2; i3] /\
       contact d1 = [(i1, c1); (i2, c2); (i3, c3)] /\
       (fullName c1 = "Alex Johnson" /\ frequencyDays c1 = Some 14 /\
        lastContactedAt c1
        = At {| micros := 1000 * ((demo_clock 0%nat - 30 * 86400000000) / 1000);
                aware := true |}) /\
       (fullName c2 = "Jamie Lee" /\ frequencyDays c2 = Some 30 /\
        lastContactedAt c2
        = At {| micros := 1000 * ((demo_clock 1%nat - 90 * 86400000000) / 1000);
                aware := true |}) /\
       (fullName c3 = "Taylor Kim" /\ frequencyDays c3 = Some 7 /\
        lastContactedAt c3 = Absent)) /\
    seed_demo demo_clock (append_contact true) (Some d1) t1
    = (inr (NotSeeded "Contacts already exist"), Some d1, t1).
Proof.
  apply (seed_demo_once demo_clock true (append_contact true) empty_db 0%nat).
  intros c d t. exists (bson_contact true c).
  split; [reflexivity|]. repeat split.
Defined.

(** On the example clock the seeded contacts come back from the suggestion
    endpoint as the seed data intends: Taylor, Jamie (90 days), Alex (30
    days). *)
Example seed_then_suggest :
  exists r d1 t1 out,
    seed_demo demo_clock (append_contact true) (Some empty_db) 0%nat
    = (inr r, Some d1, t1) /\
    fst (get_suggestions demo_fromisoformat demo_clock (Some d1) "daily" 3 t1)
    = inr out /\
    map (fun c => (fullName (doc c), daysSince c)) out
    = [("Taylor Kim", Some None); ("Jamie Lee", Some (Some 90));
       ("Alex Johnson", Some (Some 30))].
Proof.
  do 4 eexists. split; [vm_compute; reflexivity|].
  split; vm_compute; reflexivity.
Qed.
